(** * Googl 1.5.0: the math solver and the knowledge base of [main.py]

    A shallow embedding of [main.py] and the properties of its two
    components: the safelisted expression evaluator ([safe_eval_expr],
    [solve_math_expression]) and the knowledge store
    ([load_knowledge_base], [get_answer_for_question]).

    What belongs to [main.py] is defined here as it is written there.  What
    [main.py] delegates to the Python runtime is kept apart:
    - [ast.parse] is a parameter of [solve_math_expression]; module
      [Fragment] gives a reference parser for the arithmetic fragment of the
      grammar, used at concrete inputs;
    - arithmetic on [int] and concatenation of [str] are written out; the
      operators on the remaining operand types and the functions of the
      [math] module are fields of a [Runtime] record (except [math.gcd] on
      two integers, which is written out);
    - [open] and [json.load] are parameters of [load_knowledge_base].

    Python strings are represented by their UTF-8 bytes.  The interpreter's
    recursion limit is not modelled: [RecursionError] is one more exception
    that the [except Exception] clause of [solve_math_expression] swallows. *)

From Stdlib Require Import ZArith String Ascii List Floats.PrimFloat.
From stdpp Require Import gmap strings list.

#[local] Set Warnings "-register-all".
Open Scope Z_scope.

(** ** Python values and exceptions *)

(** The objects the evaluator can hold: the values of [ast.Constant] nodes
    (None, bool, int, float, complex, str, bytes, Ellipsis), the function
    objects of the [math] module, and the tuples some of them return. *)
Inductive value : Type :=
| VNone
| VBool (b : bool)
| VInt (z : Z)
| VFloat (f : float)
| VComplex (re im : float)
| VStr (s : string)
| VBytes (s : string)
| VEllipsis
| VBuiltin (name : string)
| VTuple (items : list value).

(** The exception classes raised inside the [try] block of
    [solve_math_expression] and by the file operations.  All of them derive
    from [Exception]. *)
Inductive exn : Type :=
| SyntaxError
| ValueError (msg : string)
| AttributeError
| TypeError
| ZeroDivisionError
| OverflowError
| KeyError
| FileNotFoundError
| OtherException (cls : string).

(** A computation either returns or raises. *)
Inductive outcome (A : Type) : Type :=
| Ok (a : A)
| Raise (e : exn).
Arguments Ok {A} a.
Arguments Raise {A} e.

#[global] Instance result_ret : MRet outcome := @Ok.
#[global] Instance result_bind : MBind outcome := fun A B k r =>
  match r with
  | Ok a => k a
  | Raise e => Raise e
  end.

Definition raises {A} (r : outcome A) : Prop := exists e, r = Raise e.

(** ** The syntax tree of the [ast] module *)

Inductive operator : Type :=
| Add | Sub | Mult | MatMult | Div | Mod | Pow
| LShift | RShift | BitOr | BitXor | BitAnd | FloorDiv.

Inductive unaryop : Type := Invert | Not | UAdd | USub.

(** Expression nodes.  The classes [safe_eval_expr] and
    [solve_math_expression] test for are constructors of their own, and so
    are [Attribute], [Subscript] and [Starred]; [OtherExpr] stands for every
    other expression class (BoolOp, Compare, IfExp, Lambda, Tuple, List,
    JoinedStr, NamedExpr, ...), with its class name and its
    sub-expressions. *)
Inductive expr : Type :=
| Constant (v : value)
| Name (id : string)
| BinOp (left : expr) (op : operator) (right : expr)
| UnaryOp (op : unaryop) (operand : expr)
| Call (func : expr) (args : list expr) (keywords : list (option string * expr))
| Attribute (obj : expr) (attr : string)
| Subscript (obj : expr) (slice : expr)
| Starred (e : expr)
| OtherExpr (cls : string) (children : list expr).

(** Statement nodes: [Assign], [Expr], and [OtherStmt] for every other
    statement class (Import, For, While, If, AugAssign, FunctionDef, ...). *)
Inductive stmt : Type :=
| Assign (targets : list expr) (e : expr)
| Expr (e : expr)
| OtherStmt (cls : string).

#[global] Instance operator_eq_dec : EqDecision operator.
Proof. solve_decision. Defined.
#[global] Instance unaryop_eq_dec : EqDecision unaryop.
Proof. solve_decision. Defined.

(** ** The Python runtime behind the evaluator *)

(** What the interpreter does where this development does not spell it out:
    [py_binop op a b] is the binary operator [op] on two objects,
    [py_unaryop op a] a unary operator, and [py_math name args] the call
    [math.name( *args )].  The record covers every operator of the grammar,
    not only the safelisted ones. *)
Record Runtime : Type := {
  py_binop : operator -> value -> value -> outcome value;
  py_unaryop : unaryop -> value -> outcome value;
  py_math : string -> list value -> outcome value
}.

(** The functions of the [operator] module that [allowed_ops] refers to. *)
Inductive pyfunction : Type :=
| operator_add | operator_sub | operator_mul | operator_truediv
| operator_pow | operator_mod | operator_neg.

Section Operators.
Variable rt : Runtime.

Definition add (a b : value) : outcome value :=
  match a, b with
  | VInt x, VInt y => Ok (VInt (x + y))
  | VStr s, VStr t => Ok (VStr (s ++ t))
  | _, _ => py_binop rt Add a b
  end.

Definition sub (a b : value) : outcome value :=
  match a, b with
  | VInt x, VInt y => Ok (VInt (x - y))
  | _, _ => py_binop rt Sub a b
  end.

Definition mul (a b : value) : outcome value :=
  match a, b with
  | VInt x, VInt y => Ok (VInt (x * y))
  | _, _ => py_binop rt Mult a b
  end.

(** [int / int] raises on a zero divisor and is a float otherwise. *)
Definition truediv (a b : value) : outcome value :=
  match a, b with
  | VInt x, VInt y =>
      if y =? 0 then Raise ZeroDivisionError else py_binop rt Div a b
  | _, _ => py_binop rt Div a b
  end.

(** [int ** int] is an integer for a non-negative exponent; a negative
    exponent raises on base zero and gives a float otherwise. *)
Definition pow (a b : value) : outcome value :=
  match a, b with
  | VInt x, VInt y =>
      if 0 <=? y then Ok (VInt (x ^ y))
      else if x =? 0 then Raise ZeroDivisionError
      else py_binop rt Pow a b
  | _, _ => py_binop rt Pow a b
  end.

(** [int % int] takes the sign of the divisor, as [Z.modulo] does. *)
Definition mod_ (a b : value) : outcome value :=
  match a, b with
  | VInt x, VInt y =>
      if y =? 0 then Raise ZeroDivisionError else Ok (VInt (x mod y))
  | _, _ => py_binop rt Mod a b
  end.

Definition neg (a : value) : outcome value :=
  match a with
  | VInt x => Ok (VInt (- x))
  | _ => py_unaryop rt USub a
  end.

(** Calling a function of the [operator] module on positional arguments;
    a wrong number of arguments is a [TypeError]. *)
Definition apply_function (f : pyfunction) (args : list value) : outcome value :=
  match f, args with
  | operator_add, [a; b] => add a b
  | operator_sub, [a; b] => sub a b
  | operator_mul, [a; b] => mul a b
  | operator_truediv, [a; b] => truediv a b
  | operator_pow, [a; b] => pow a b
  | operator_mod, [a; b] => mod_ a b
  | operator_neg, [a] => neg a
  | _, _ => Raise TypeError
  end.

(** [math.name( *args )]. *)
Definition math_call (name : string) (args : list value) : outcome value :=
  match args with
  | [VInt a; VInt b] =>
      if String.eqb name "gcd" then Ok (VInt (Z.gcd a b)) else py_math rt name args
  | _ => py_math rt name args
  end.

(** [f( *args )] for an object held in a registry: the functions of the
    [math] module are callable, a number is not. *)
Definition call_value (f : value) (args : list value) : outcome value :=
  match f with
  | VBuiltin name => math_call name args
  | _ => Raise TypeError
  end.
End Operators.

(** ** The module globals of [main.py] *)

(** The class of an operator node, [type(node.op)]: the keys of
    [allowed_ops]. *)
Inductive opclass : Type :=
| BinClass (op : operator)
| UnClass (op : unaryop).

#[global] Instance opclass_eq_dec : EqDecision opclass.
Proof. solve_decision. Defined.

Definition allowed_ops : list (opclass * pyfunction) :=
  [ (BinClass Add, operator_add);
    (BinClass Sub, operator_sub);
    (BinClass Mult, operator_mul);
    (BinClass Div, operator_truediv);
    (BinClass Pow, operator_pow);
    (BinClass Mod, operator_mod);
    (UnClass USub, operator_neg) ].

(** [d.get(k)] for a dict held as the list of its items: [None] when
    [k not in d]. *)
Fixpoint dict_get {K V} `{EqDecision K} (k : K) (d : list (K * V)) : option V :=
  match d with
  | [] => None
  | (k', v) :: d' => if decide (k = k') then Some v else dict_get k d'
  end.

(** The [math] module of CPython 3.11: the names [dir(math)] lists and the
    object bound to each.  [e], [inf], [nan], [pi] and [tau] are floats, every
    other public name is a built-in function.  (3.10 lacks [cbrt] and [exp2];
    3.12 adds [sumprod] and 3.13 [fma].) *)
Definition dir_math : list string :=
  [ "__doc__"; "__loader__"; "__name__"; "__package__"; "__spec__";
    "acos"; "acosh"; "asin"; "asinh"; "atan"; "atan2"; "atanh"; "cbrt";
    "ceil"; "comb"; "copysign"; "cos"; "cosh"; "degrees"; "dist"; "e"; "erf";
    "erfc"; "exp"; "exp2"; "expm1"; "fabs"; "factorial"; "floor"; "fmod";
    "frexp"; "fsum"; "gamma"; "gcd"; "hypot"; "inf"; "isclose"; "isfinite";
    "isinf"; "isnan"; "isqrt"; "lcm"; "ldexp"; "lgamma"; "log"; "log10";
    "log1p"; "log2"; "modf"; "nan"; "nextafter"; "perm"; "pi"; "pow"; "prod";
    "radians"; "remainder"; "sin"; "sinh"; "sqrt"; "tan"; "tanh"; "tau";
    "trunc"; "ulp" ]%string.

Definition math_pi : float := 0x1.921fb54442d18p+1%float.
Definition math_e : float := 0x1.5bf0a8b145769p+1%float.
Definition math_tau : float := 0x1.921fb54442d18p+2%float.
Definition math_inf : float := infinity.
Definition math_nan : float := nan.

(** [getattr(math, name)] for the public names; the dunder attributes are
    strings and module machinery, which [allowed_funcs] filters out. *)
Definition math_getattr (name : string) : value :=
  if String.eqb name "pi" then VFloat math_pi
  else if String.eqb name "e" then VFloat math_e
  else if String.eqb name "tau" then VFloat math_tau
  else if String.eqb name "inf" then VFloat math_inf
  else if String.eqb name "nan" then VFloat math_nan
  else if String.prefix "__" name then VNone
  else VBuiltin name.

(** [{name: getattr(math, name) for name in dir(math)
      if not name.startswith("__")}] *)
Definition allowed_funcs : gmap string value :=
  list_to_map
    (map (fun name => (name, math_getattr name))
       (List.filter (fun name => negb (String.prefix "__" name)) dir_math)).

(** [{"pi": math.pi, "e": math.e}] *)
Definition constants : gmap string value :=
  <["e" := VFloat math_e]> (<["pi" := VFloat math_pi]> ∅).

(** ** The evaluator *)

(** How one turn of a loop over statements ends. *)
Inductive step : Type :=
| Next (result : value) (variables : gmap string value)
| Return (v : value)
| Raised (ex : exn).

Section Evaluator.
Variable rt : Runtime.
(** The registries [safe_eval_expr] reads: the globals [allowed_funcs] and
    [constants]. *)
Variables funcs consts : gmap string value.

(** [safe_eval_expr(node)], reading the global [variables]. *)
Fixpoint safe_eval_expr (variables : gmap string value) (node : expr)
  {struct node} : outcome value :=
  match node with
  | Constant v => Ok v
  | Name id =>
      match variables !! id with
      | Some v => Ok v
      | None =>
          match funcs !! id with
          | Some f => Ok f
          | None =>
              match consts !! id with
              | Some c => Ok c
              | None => Raise (ValueError ("Unknown variable or function: " ++ id))
              end
          end
      end
  | BinOp node_left op node_right =>
      match dict_get (BinClass op) allowed_ops with
      | Some f =>
          l ← safe_eval_expr variables node_left;
          r ← safe_eval_expr variables node_right;
          apply_function rt f [l; r]
      | None => Raise (ValueError "Unsupported expression")
      end
  | UnaryOp op operand =>
      match dict_get (UnClass op) allowed_ops with
      | Some f =>
          v ← safe_eval_expr variables operand;
          apply_function rt f [v]
      | None => Raise (ValueError "Unsupported expression")
      end
  | Call func args _ =>
      match func with
      | Name func_name =>
          match funcs !! func_name with
          | Some f =>
              vs ← (fix eval_args (l : list expr) : outcome (list value) :=
                      match l with
                      | [] => Ok []
                      | arg :: l' =>
                          v ← safe_eval_expr variables arg;
                          vs ← eval_args l';
                          Ok (v :: vs)
                      end) args;
              call_value rt f vs
          | None => Raise (ValueError ("Function " ++ func_name ++ " not allowed"))
          end
      | _ => Raise AttributeError
      end
  | _ => Raise (ValueError "Unsupported expression")
  end.

(** [[safe_eval_expr(arg) for arg in args]] *)
Fixpoint eval_args (variables : gmap string value) (l : list expr)
  : outcome (list value) :=
  match l with
  | [] => Ok []
  | arg :: l' =>
      v ← safe_eval_expr variables arg;
      vs ← eval_args variables l';
      Ok (v :: vs)
  end.

(** One turn of the loop [for node in parsed.body] of
    [solve_math_expression]: the turn ends with new values of [result] and
    [variables], or the function returns, or an exception leaves the loop. *)
Definition exec_stmt (variables : gmap string value) (node : stmt) : step :=
  match node with
  | Assign targets e =>
      match targets with
      | [Name var_name] =>
          match safe_eval_expr variables e with
          | Ok v => Next v (<[var_name := v]> variables)
          | Raise ex => Raised ex
          end
      | _ => Return (VStr "Invalid assignment")
      end
  | Expr e =>
      match safe_eval_expr variables e with
      | Ok v => Next v variables
      | Raise ex => Raised ex
      end
  | OtherStmt _ => Return (VStr "Unsupported statement")
  end.

(** The loop and the [return result] after it, from a current [result]
    and [variables]: the value returned or the exception raised, and the
    [variables] left behind. *)
Fixpoint run_body (body : list stmt) (result : value)
  (variables : gmap string value) : outcome value * gmap string value :=
  match body with
  | [] => (Ok result, variables)
  | node :: rest =>
      match exec_stmt variables node with
      | Next result' variables' => run_body rest result' variables'
      | Return v => (Ok v, variables)
      | Raised ex => (Raise ex, variables)
      end
  end.

(** The statements of [body] all end their turn normally: the [result] and
    [variables] after the last one. *)
Fixpoint run_normally (body : list stmt) (result : value)
  (variables : gmap string value) : option (value * gmap string value) :=
  match body with
  | [] => Some (result, variables)
  | node :: rest =>
      match exec_stmt variables node with
      | Next result' variables' => run_normally rest result' variables'
      | _ => None
      end
  end.
End Evaluator.

(** [s.replace(old, new)] for a one-character [old].  A string is held as its
    UTF-8 bytes, and no byte of a multi-byte character is an ASCII byte, so
    replacing the byte replaces the character. *)
Fixpoint replace (s : string) (old : ascii) (new : string) : string :=
  match s with
  | EmptyString => EmptyString
  | String c s' =>
      if Ascii.eqb c old then new ++ replace s' old new
      else String c (replace s' old new)
  end.

Section Solver.
(** [ast.parse(expr, mode='exec').body], or the exception it raises. *)
Variable ast_parse : string -> outcome (list stmt).
Variable rt : Runtime.
Variables funcs consts : gmap string value.

(** [solve_math_expression(expr)]: the value returned and the global
    [variables] after the call. *)
Definition solve_math_expression (expr : string)
  (variables : gmap string value) : value * gmap string value :=
  let expr := replace expr "^" "**" in
  match ast_parse expr with
  | Raise _ => (VNone, variables)
  | Ok parsed =>
      match run_body rt funcs consts parsed VNone variables with
      | (Ok result, variables') => (result, variables')
      | (Raise _, variables') => (VNone, variables')
      end
  end.
End Solver.

(** ** A reference parser for the arithmetic fragment *)

(** [ast.parse] belongs to the Python library.  To run the solver on
    concrete text, this module parses the part of the grammar the solver is
    meant for: statements separated by newlines or semicolons; assignments
    (chained ones included), expression statements and [import name];
    expressions built from decimal integers, names, [None], [True], [False],
    quoted strings without escapes, parentheses, the operators
    [+ - * / // % @ **], unary [+ - ~], calls with positional and keyword
    arguments, attribute access and subscripts.  [parse] answers [None] on
    text outside the fragment, whether Python accepts that text or not. *)
Module Fragment.

Inductive token : Type :=
| TName (s : string) | TInt (z : Z) | TStr (s : string) | TConst (v : value)
| TImport
| TPlus | TMinus | TStar | TSlash | TPercent | TDStar | TDSlash | TAt | TTilde
| TLPar | TRPar | TLBrack | TRBrack | TComma | TDot | TEq | TSemi | TNewline.

Definition code (c : ascii) : Z := Z.of_nat (nat_of_ascii c).
Definition is_digit (c : ascii) : bool := (48 <=? code c) && (code c <=? 57).
Definition is_name_start (c : ascii) : bool :=
  ((65 <=? code c) && (code c <=? 90)) || ((97 <=? code c) && (code c <=? 122))
  || (code c =? 95).
Definition is_name_char (c : ascii) : bool := is_name_start c || is_digit c.
Definition is_blank (c : ascii) : bool := (code c =? 32) || (code c =? 9).
Definition is_quote (c : ascii) : bool := (code c =? 39) || (code c =? 34).

(** The longest prefix whose characters satisfy [p], and the rest. *)
Fixpoint span (p : ascii -> bool) (s : string) : string * string :=
  match s with
  | String c s' =>
      if p c then let '(a, b) := span p s' in (String c a, b) else (EmptyString, s)
  | EmptyString => (EmptyString, EmptyString)
  end.

Definition starts_with (p : ascii -> bool) (s : string) : bool :=
  match s with
  | String c _ => p c
  | EmptyString => false
  end.

Fixpoint decimal (acc : Z) (digits : string) : Z :=
  match digits with
  | String c s' => decimal (10 * acc + (code c - 48)) s'
  | EmptyString => acc
  end.

Definition reserved : list string :=
  [ "and"; "as"; "assert"; "async"; "await"; "break"; "class"; "continue";
    "def"; "del"; "elif"; "else"; "except"; "finally"; "for"; "from";
    "global"; "if"; "in"; "is"; "lambda"; "nonlocal"; "not"; "or"; "pass";
    "raise"; "return"; "try"; "while"; "with"; "yield" ]%string.

Definition word (w : string) : option token :=
  if String.eqb w "None" then Some (TConst VNone)
  else if String.eqb w "True" then Some (TConst (VBool true))
  else if String.eqb w "False" then Some (TConst (VBool false))
  else if String.eqb w "import" then Some TImport
  else if existsb (String.eqb w) reserved then None
  else Some (TName w).

(** An operator or delimiter at the head of [s]; the two-character
    operators first, and none of the operators the fragment leaves out
    ([==], [+=], [->], ...). *)
Definition punct (s : string) : option (token * string) :=
  match s with
  | String c s' =>
      let simple (t : token) :=
        if starts_with (fun d => code d =? 61) s' then None else Some (t, s') in
      if code c =? 42 then
        match s' with
        | String d s'' =>
            if code d =? 42 then
              if starts_with (fun d => code d =? 61) s'' then None else Some (TDStar, s'')
            else simple TStar
        | EmptyString => simple TStar
        end
      else if code c =? 47 then
        match s' with
        | String d s'' =>
            if code d =? 47 then
              if starts_with (fun d => code d =? 61) s'' then None else Some (TDSlash, s'')
            else simple TSlash
        | EmptyString => simple TSlash
        end
      else if code c =? 43 then simple TPlus
      else if code c =? 45 then
        if starts_with (fun d => code d =? 62) s' then None else simple TMinus
      else if code c =? 37 then simple TPercent
      else if code c =? 64 then simple TAt
      else if code c =? 61 then simple TEq
      else if code c =? 126 then Some (TTilde, s')
      else if code c =? 40 then Some (TLPar, s')
      else if code c =? 41 then Some (TRPar, s')
      else if code c =? 91 then Some (TLBrack, s')
      else if code c =? 93 then Some (TRBrack, s')
      else if code c =? 44 then Some (TComma, s')
      else if code c =? 46 then
        if starts_with (fun d => is_digit d || (code d =? 46)) s' then None
        else Some (TDot, s')
      else if code c =? 59 then Some (TSemi, s')
      else None
  | EmptyString => None
  end.

(** The tokens of [s]; [bol] says that no token was read yet on the
    current line, where blanks are indentation. *)
Fixpoint lex (fuel : nat) (bol : bool) (s : string) : option (list token) :=
  match fuel with
  | O => None
  | S fuel =>
      match s with
      | EmptyString => Some []
      | String c s' =>
          if is_blank c then
            if bol then
              let '(_, r) := span is_blank s in
              match r with
              | EmptyString => Some []
              | String d _ => if code d =? 10 then lex fuel true r else None
              end
            else lex fuel false s'
          else if code c =? 10 then
            ts ← lex fuel true s'; Some (TNewline :: ts)
          else if is_digit c then
            let '(ds, r) := span is_digit s in
            if starts_with (fun d => is_name_char d || (code d =? 46)) r then None
            else if (code c =? 48) && (1 <? Z.of_nat (String.length ds)) then None
            else ts ← lex fuel false r; Some (TInt (decimal 0 ds) :: ts)
          else if is_name_start c then
            let '(w, r) := span is_name_char s in
            if starts_with is_quote r then None
            else t ← word w; ts ← lex fuel false r; Some (t :: ts)
          else if is_quote c then
            let '(body, r) :=
              span (fun d => negb ((code d =? code c) || (code d =? 92)
                                   || (code d =? 10) || (code d =? 13))) s' in
            match r with
            | String d r' =>
                if code d =? code c then
                  if (String.length body =? 0)%nat && starts_with is_quote r' then None
                  else ts ← lex fuel false r'; Some (TStr body :: ts)
                else None
            | EmptyString => None
            end
          else
            '(t, r) ← punct s; ts ← lex fuel false r; Some (t :: ts)
      end
  end.

Definition tokens (s : string) : option (list token) :=
  lex (S (String.length s)) true s.

(** What may stand left of [=]. *)
Definition is_target (e : expr) : bool :=
  match e with
  | Name _ | Attribute _ _ | Subscript _ _ => true
  | _ => false
  end.

(** Recursive descent along the precedence levels of the grammar: sum,
    term, factor, power, primary, atom.  Each parser returns the node read
    and the tokens left. *)
Fixpoint p_sum (n : nat) (ts : list token) : option (expr * list token) :=
  match n with
  | O => None
  | S n => '(l, r) ← p_term n ts; p_sum_rest n l r
  end
with p_sum_rest (n : nat) (acc : expr) (ts : list token) : option (expr * list token) :=
  match n with
  | O => None
  | S n =>
      match ts with
      | TPlus :: r => '(e, r') ← p_term n r; p_sum_rest n (BinOp acc Add e) r'
      | TMinus :: r => '(e, r') ← p_term n r; p_sum_rest n (BinOp acc Sub e) r'
      | _ => Some (acc, ts)
      end
  end
with p_term (n : nat) (ts : list token) : option (expr * list token) :=
  match n with
  | O => None
  | S n => '(l, r) ← p_factor n ts; p_term_rest n l r
  end
with p_term_rest (n : nat) (acc : expr) (ts : list token) : option (expr * list token) :=
  match n with
  | O => None
  | S n =>
      match ts with
      | TStar :: r => '(e, r') ← p_factor n r; p_term_rest n (BinOp acc Mult e) r'
      | TSlash :: r => '(e, r') ← p_factor n r; p_term_rest n (BinOp acc Div e) r'
      | TDSlash :: r => '(e, r') ← p_factor n r; p_term_rest n (BinOp acc FloorDiv e) r'
      | TPercent :: r => '(e, r') ← p_factor n r; p_term_rest n (BinOp acc Mod e) r'
      | TAt :: r => '(e, r') ← p_factor n r; p_term_rest n (BinOp acc MatMult e) r'
      | _ => Some (acc, ts)
      end
  end
with p_factor (n : nat) (ts : list token) : option (expr * list token) :=
  match n with
  | O => None
  | S n =>
      match ts with
      | TPlus :: r => '(e, r') ← p_factor n r; Some (UnaryOp UAdd e, r')
      | TMinus :: r => '(e, r') ← p_factor n r; Some (UnaryOp USub e, r')
      | TTilde :: r => '(e, r') ← p_factor n r; Some (UnaryOp Invert e, r')
      | _ =>
          '(b, r) ← p_primary n ts;
          match r with
          | TDStar :: r' => '(e, r'') ← p_factor n r'; Some (BinOp b Pow e, r'')
          | _ => Some (b, r)
          end
      end
  end
with p_primary (n : nat) (ts : list token) : option (expr * list token) :=
  match n with
  | O => None
  | S n =>
      match ts with
      | TName s :: r => p_trailers n (Name s) r
      | TInt z :: r => p_trailers n (Constant (VInt z)) r
      | TConst v :: r => p_trailers n (Constant v) r
      | TStr s :: r =>
          match r with
          | TStr _ :: _ => None
          | _ => p_trailers n (Constant (VStr s)) r
          end
      | TLPar :: r =>
          '(e, r') ← p_sum n r;
          match r' with
          | TRPar :: r'' => p_trailers n e r''
          | _ => None
          end
      | _ => None
      end
  end
with p_trailers (n : nat) (e : expr) (ts : list token) : option (expr * list token) :=
  match n with
  | O => None
  | S n =>
      match ts with
      | TDot :: TName a :: r => p_trailers n (Attribute e a) r
      | TLBrack :: r =>
          '(i, r') ← p_sum n r;
          match r' with
          | TRBrack :: r'' => p_trailers n (Subscript e i) r''
          | _ => None
          end
      | TLPar :: r =>
          '(args, kws, r') ← p_args n [] [] r;
          p_trailers n (Call e args kws) r'
      | _ => Some (e, ts)
      end
  end
with p_args (n : nat) (args : list expr) (kws : list (option string * expr))
       (ts : list token) : option (list expr * list (option string * expr) * list token) :=
  match n with
  | O => None
  | S n =>
      match ts with
      | TRPar :: r => Some (rev args, rev kws, r)
      | TName k :: TEq :: r =>
          '(e, r') ← p_sum n r;
          match r' with
          | TComma :: r'' => p_args n args ((Some k, e) :: kws) r''
          | TRPar :: r'' => Some (rev args, rev ((Some k, e) :: kws), r'')
          | _ => None
          end
      | _ =>
          match kws with
          | _ :: _ => None
          | [] =>
              '(e, r') ← p_sum n ts;
              match r' with
              | TComma :: r'' => p_args n (e :: args) kws r''
              | TRPar :: r'' => Some (rev (e :: args), rev kws, r'')
              | _ => None
              end
          end
      end
  end.

(** [target = target = ... = value], or a lone expression. *)
Fixpoint p_assign (n : nat) (targets : list expr) (e : expr) (ts : list token)
  : option (stmt * list token) :=
  match n with
  | O => None
  | S n' =>
      match ts with
      | TEq :: r =>
          if is_target e then '(e', r') ← p_sum n r; p_assign n' (e :: targets) e' r'
          else None
      | _ =>
          match targets with
          | [] => Some (Expr e, ts)
          | _ => Some (Assign (rev targets) e, ts)
          end
      end
  end.

Definition p_stmt (n : nat) (ts : list token) : option (stmt * list token) :=
  match ts with
  | TImport :: TName _ :: r => Some (OtherStmt "Import", r)
  | _ => '(e, r) ← p_sum n ts; p_assign n [] e r
  end.

Fixpoint p_body (n : nat) (ts : list token) : option (list stmt) :=
  match n with
  | O => None
  | S n' =>
      match ts with
      | [] => Some []
      | TNewline :: r => p_body n' r
      | _ =>
          '(s, r) ← p_stmt n ts;
          match r with
          | [] => Some [s]
          | TNewline :: r' => body ← p_body n' r'; Some (s :: body)
          | TSemi :: r' =>
              match r' with
              | TSemi :: _ => None
              | _ => body ← p_body n' r'; Some (s :: body)
              end
          | _ => None
          end
      end
  end.

Definition parse (s : string) : option (list stmt) :=
  ts ← tokens s; p_body (8 * S (length ts)) ts.

(** [parse] as the parser [solve_math_expression] takes: text outside the
    fragment is reported as a syntax error, so results obtained through
    [ast_parse] speak for Python only on text inside the fragment. *)
Definition ast_parse (s : string) : outcome (list stmt) :=
  match parse s with
  | Some body => Ok body
  | None => Raise SyntaxError
  end.
End Fragment.

(** ** The knowledge base *)

(** What [json.load] returns. *)
Inductive json : Type :=
| JNull
| JBool (b : bool)
| JInt (z : Z)
| JFloat (f : float)
| JStr (s : string)
| JList (items : list json)
| JDict (fields : list (string * json)).

(** [obj[key]] for a string key: only a dict has string keys. *)
Definition getitem (obj : json) (key : string) : outcome json :=
  match obj with
  | JDict fields =>
      match dict_get key fields with
      | Some v => Ok v
      | None => Raise KeyError
      end
  | _ => Raise TypeError
  end.

(** The objects [for q in obj] runs through: the items of a list, the keys
    of a dict, the characters of a string. *)
Definition iterate (obj : json) : outcome (list json) :=
  match obj with
  | JList items => Ok items
  | JDict fields => Ok (map (fun kv => JStr (fst kv)) fields)
  | JStr s => Ok (map (fun c => JStr (String c EmptyString)) (list_ascii_of_string s))
  | _ => Raise TypeError
  end.

(** [obj == question] for a string [question]. *)
Definition eq_str (obj : json) (question : string) : bool :=
  match obj with
  | JStr s => String.eqb s question
  | _ => false
  end.

(** The loop of [get_answer_for_question]; leaving it without a [return]
    makes the function return [None]. *)
Fixpoint scan_questions (question : string) (qs : list json) : outcome json :=
  match qs with
  | [] => Ok JNull
  | q :: rest =>
      x ← getitem q "question";
      if eq_str x question then getitem q "answer"
      else scan_questions question rest
  end.

Definition get_answer_for_question (question : string) (knowledge_base : json)
  : outcome json :=
  questions ← getitem knowledge_base "questions";
  qs ← iterate questions;
  scan_questions question qs.

(** The shape of the persisted file:
    [{"questions": [{"question": ..., "answer": ...}, ...]}]. *)
Record entry : Type := { question : string; answer : string }.

Definition entry_json (e : entry) : json :=
  JDict [("question", JStr (question e)); ("answer", JStr (answer e))]%string.

Definition kb_json (entries : list entry) : json :=
  JDict [("questions", JList (map entry_json entries))]%string.

Section Load.
(** [open(file_path, 'r')] and [json.load(file)]. *)
Variable file : Type.
Variable open : string -> outcome file.
Variable json_load : file -> outcome json.

(** The body of the [try] statement. *)
Definition read_knowledge_base (file_path : string) : outcome json :=
  f ← open file_path; json_load f.

Definition load_knowledge_base (file_path : string) : outcome json :=
  match read_knowledge_base file_path with
  | Raise FileNotFoundError => Ok (JDict [("questions", JList [])]%string)
  | r => r
  end.
End Load.

(** The test [if math_result is not None] of the session loop: when it
    holds the loop prints [math_result], otherwise it goes on to the
    knowledge base. *)
Definition is_not_None (math_result : value) : bool :=
  match math_result with
  | VNone => false
  | _ => true
  end.

(** ** Vocabulary of the properties *)

(** An attribute access or a subscript occurs somewhere in [e], the keyword
    arguments of calls included. *)
Fixpoint has_access (e : expr) : bool :=
  match e with
  | Constant _ | Name _ => false
  | BinOp l _ r => has_access l || has_access r
  | UnaryOp _ a => has_access a
  | Call f args kws =>
      has_access f || existsb has_access args
      || existsb (fun kw => has_access (snd kw)) kws
  | Attribute _ _ | Subscript _ _ => true
  | Starred a => has_access a
  | OtherExpr _ children => existsb has_access children
  end.

(** The same, outside the keyword arguments of calls. *)
Fixpoint has_positional_access (e : expr) : bool :=
  match e with
  | Constant _ | Name _ => false
  | BinOp l _ r => has_positional_access l || has_positional_access r
  | UnaryOp _ a => has_positional_access a
  | Call f args _ => has_positional_access f || existsb has_positional_access args
  | Attribute _ _ | Subscript _ _ => true
  | Starred a => has_positional_access a
  | OtherExpr _ children => existsb has_positional_access children
  end.

(** The node classes [safe_eval_expr] has no case for, operator nodes with
    an operator outside [allowed_ops] included. *)
Definition unsupported (e : expr) : bool :=
  match e with
  | Constant _ | Name _ | Call _ _ _ => false
  | BinOp _ op _ => negb (bool_decide (is_Some (dict_get (BinClass op) allowed_ops)))
  | UnaryOp op _ => negb (bool_decide (is_Some (dict_get (UnClass op) allowed_ops)))
  | Attribute _ _ | Subscript _ _ | Starred _ | OtherExpr _ _ => true
  end.

(** [len(node.targets) != 1 or not isinstance(node.targets[0], ast.Name)] *)
Definition invalid_targets (targets : list expr) : bool :=
  match targets with
  | [Name _] => false
  | _ => true
  end.

(** Two runtimes that agree on the safelist: on the operators of
    [allowed_ops] and on the functions registered in [funcs]. *)
Definition agree_on_safelist (funcs : gmap string value) (rt1 rt2 : Runtime) : Prop :=
  (forall op a b, is_Some (dict_get (BinClass op) allowed_ops) ->
     py_binop rt1 op a b = py_binop rt2 op a b)
  /\ (forall op a, is_Some (dict_get (UnClass op) allowed_ops) ->
        py_unaryop rt1 op a = py_unaryop rt2 op a)
  /\ (forall id name args, funcs !! id = Some (VBuiltin name) ->
        py_math rt1 name args = py_math rt2 name args).

(** A runtime that refuses whatever this development leaves to the runtime.
    It serves to run the evaluator on inputs that stay within integers and
    strings. *)
Definition strict_runtime : Runtime :=
  {| py_binop := fun _ _ _ => Raise TypeError;
     py_unaryop := fun _ _ => Raise TypeError;
     py_math := fun _ _ => Raise TypeError |}.

(** The opposite extreme: a runtime in which every operation left to it
    succeeds. *)
Definition lenient_runtime : Runtime :=
  {| py_binop := fun _ a _ => Ok a;
     py_unaryop := fun _ a => Ok a;
     py_math := fun _ _ => Ok VNone |}.

(** The lookup the specification describes: the first of the three tables,
    in the order variables, functions, constants, that knows the name. *)
Definition resolve_by_priority (tables : list (gmap string value)) (id : string)
  : option value :=
  head (omap (fun table : gmap string value => table !! id) tables).

(** Registries in which one name is known to all three tables. *)
Definition sample_funcs : gmap string value := <["n" := VBuiltin "n"]> ∅.
Definition sample_consts : gmap string value :=
  <["n" := VInt 3]> (<["c" := VInt 4]> ∅).

(** [s] with every [^] turned into [**], character by character. *)
Definition caret_to_power (s : string) : string :=
  string_of_list_ascii
    (flat_map (fun c => if Ascii.eqb c "^" then ["*"; "*"]%char else [c])
       (list_ascii_of_string s)).

(** The first entry of [entries] whose question is [q]. *)
Definition first_answer (q : string) (entries : list entry) : option string :=
  answer <$> List.find (fun e => String.eqb (question e) q) entries.

(** A file system with one well-formed file, one file that is not JSON, one
    file the process may not read, and nothing else; files are handed out as
    descriptors. *)
Definition sample_open (path : string) : outcome nat :=
  if String.eqb path "knowledge_base.json" then Ok 3%nat
  else if String.eqb path "broken.json" then Ok 4%nat
  else if String.eqb path "locked.json" then Raise (OtherException "PermissionError")
  else Raise FileNotFoundError.

Definition sample_entries : list entry :=
  [ {| question := "What is your name?"; answer := "GooglBot" |};
    {| question := "How old are you?"; answer := "One release" |};
    {| question := "What is your name?"; answer := "Nobody" |} ]%string.

Definition sample_json_load (fd : nat) : outcome json :=
  if (fd =? 3)%nat then Ok (kb_json sample_entries)
  else Raise (ValueError "JSONDecodeError").

(** ** The rest of [main.py]: saving, matching, the session loop *)

From Stdlib Require Import DecimalString.

(** [d[k] = v] on a dict held as the list of its items: the value of an
    existing key is replaced in place, a new key goes to the end. *)
Fixpoint dict_set {K V} `{EqDecision K} (k : K) (v : V) (d : list (K * V))
  : list (K * V) :=
  match d with
  | [] => [(k, v)]
  | (k', v') :: d' =>
      if decide (k = k') then (k, v) :: d' else (k', v') :: dict_set k v d'
  end.

(** [knowledge_base['questions'].append(item)]: the list inside the dict is
    extended in place; an object that is not a list has no [append]. *)
Definition kb_append (knowledge_base : json) (item : json) : outcome json :=
  questions ← getitem knowledge_base "questions";
  match questions, knowledge_base with
  | JList items, JDict fields =>
      Ok (JDict (dict_set "questions"%string (JList (items ++ [item])) fields))
  | _, _ => Raise AttributeError
  end.

(** [[q["question"] for q in knowledge_base["questions"]]] *)
Fixpoint question_items (qs : list json) : outcome (list json) :=
  match qs with
  | [] => Ok []
  | q :: rest =>
      x ← getitem q "question";
      xs ← question_items rest;
      Ok (x :: xs)
  end.

Definition question_list (knowledge_base : json) : outcome (list json) :=
  questions ← getitem knowledge_base "questions";
  qs ← iterate questions;
  question_items qs.

(** [bool(obj)], the test of [if best_match:]. *)
Definition truthy (obj : json) : bool :=
  match obj with
  | JNull => false
  | JBool b => b
  | JInt z => negb (z =? 0)
  | JFloat f => negb (PrimFloat.eqb f PrimFloat.zero)
  | JStr s => negb (String.eqb s "")
  | JList items => negb (Nat.eqb (length items) 0)
  | JDict fields => negb (Nat.eqb (length fields) 0)
  end.

(** What the session loop takes from the interpreter, the library and the
    operating system.  [strip] and [lower] are the string methods;
    [str_value] and [str_json] are [str(obj)] as [print] computes it for an
    object that is not a string; [get_close_matches word possibilities] is
    the [difflib] function with [n=1, cutoff=0.6]; [py_eq a b] is [a == b];
    [open_read] and [json_load] are [open(path, 'r')] and [json.load];
    [open_write] is [open(path, 'w')], and [json_dump] is
    [json.dump(data, file, indent=2)] followed by the closing of the file. *)
Record World : Type := {
  disk : Type;
  file : Type;
  runtime : Runtime;
  ast_parse : string -> outcome (list stmt);
  strip : string -> string;
  lower : string -> string;
  str_value : value -> outcome string;
  str_json : json -> outcome string;
  get_close_matches : string -> list json -> outcome (list json);
  py_eq : json -> json -> bool;
  open_read : disk -> string -> outcome file;
  json_load : file -> outcome json;
  open_write : disk -> string -> outcome file * disk;
  json_dump : disk -> file -> json -> outcome unit * disk
}.

(** What the session wrote: the prompts of [input] and the lines of
    [print]. *)
Inductive out : Type :=
| Prompt (text : string)
| Print (text : string).

(** How the session loop ends: [break], or an exception that leaves
    [chat_bot]. *)
Inductive ending : Type :=
| Quit
| Crash (ex : exn).

Definition teach_prompt : string :=
  "Type the answer or " ++ String "034" "skip" ++ String "034" " to skip: ".

Section Session.
Variable w : World.

(** [save_knowledge_base(file_path, data)]: the exception raised, if any,
    and the disk left behind. *)
Definition save_knowledge_base (d : disk w) (file_path : string) (data : json)
  : outcome unit * disk w :=
  match open_write w d file_path with
  | (Ok f, d') => json_dump w d' f data
  | (Raise ex, d') => (Raise ex, d')
  end.

(** [find_best_match(user_question, questions)] *)
Definition find_best_match (user_question : string) (questions : list json)
  : outcome json :=
  matches ← get_close_matches w user_question questions;
  Ok (match matches with
      | m :: _ => m
      | [] => JNull
      end).

(** The loop of [get_answer_for_question] for a [question] of any type. *)
Fixpoint scan_equal (question : json) (qs : list json) : outcome json :=
  match qs with
  | [] => Ok JNull
  | q :: rest =>
      x ← getitem q "question";
      if py_eq w x question then getitem q "answer"
      else scan_equal question rest
  end.

(** [get_answer_for_question(best_match, knowledge_base)] as the session
    loop calls it: [best_match] is whatever object [find_best_match]
    returned. *)
Definition answer_for (best_match : json) (knowledge_base : json) : outcome json :=
  match best_match with
  | JStr question => get_answer_for_question question knowledge_base
  | _ =>
      questions ← getitem knowledge_base "questions";
      qs ← iterate questions;
      scan_equal best_match qs
  end.

(** The text [print] writes for one object. *)
Definition show_value (v : value) : outcome string :=
  match v with
  | VStr s => Ok s
  | _ => str_value w v
  end.

Definition show_json (obj : json) : outcome string :=
  match obj with
  | JStr s => Ok s
  | JNull => Ok "None"%string
  | _ => str_json w obj
  end.

(** The state of a session: the global [variables], the local
    [knowledge_base], the disk, and what was written so far. *)
Record session : Type := {
  s_variables : gmap string value;
  s_knowledge_base : json;
  s_storage : disk w;
  s_output : list out
}.

Definition emit (o : out) (s : session) : session :=
  {| s_variables := s_variables s; s_knowledge_base := s_knowledge_base s;
     s_storage := s_storage s; s_output := s_output s ++ [o] |}.

Definition with_variables (variables : gmap string value) (s : session) : session :=
  {| s_variables := variables; s_knowledge_base := s_knowledge_base s;
     s_storage := s_storage s; s_output := s_output s |}.

Definition with_knowledge_base (knowledge_base : json) (s : session) : session :=
  {| s_variables := s_variables s; s_knowledge_base := knowledge_base;
     s_storage := s_storage s; s_output := s_output s |}.

Definition with_storage (d : disk w) (s : session) : session :=
  {| s_variables := s_variables s; s_knowledge_base := s_knowledge_base s;
     s_storage := d; s_output := s_output s |}.

(** The [while True] loop of [chat_bot] on the lines typed at the console;
    when they run out, [input] raises [EOFError]. *)
Fixpoint chat_loop (inputs : list string) (s : session) {struct inputs}
  : ending * session :=
  let s := emit (Prompt "You: ") s in
  match inputs with
  | [] => (Crash (OtherException "EOFError"), s)
  | line :: rest =>
      let user_input := strip w line in
      if String.eqb (lower w user_input) "quit" then (Quit, s)
      else
        let '(math_result, variables') :=
          solve_math_expression (ast_parse w) (runtime w) allowed_funcs constants
            user_input (s_variables s) in
        let s := with_variables variables' s in
        if is_not_None math_result then
          match show_value math_result with
          | Ok text => chat_loop rest (emit (Print ("GooglBot: " ++ text)) s)
          | Raise ex => (Crash ex, s)
          end
        else
          match questions ← question_list (s_knowledge_base s);
                find_best_match user_input questions with
          | Raise ex => (Crash ex, s)
          | Ok best_match =>
              if truthy best_match then
                match answer ← answer_for best_match (s_knowledge_base s);
                      show_json answer with
                | Ok text => chat_loop rest (emit (Print ("GooglBot: " ++ text)) s)
                | Raise ex => (Crash ex, s)
                end
              else
                let s :=
                  emit (Prompt teach_prompt)
                    (emit (Print "GooglBot: I don't know the answer. Can you teach me?") s) in
                match rest with
                | [] => (Crash (OtherException "EOFError"), s)
                | line' :: rest' =>
                    let new_answer := strip w line' in
                    if String.eqb (lower w new_answer) "skip" then
                      chat_loop rest' (emit (Print "GooglBot: Okay, maybe next time.") s)
                    else
                      match kb_append (s_knowledge_base s)
                              (entry_json {| question := user_input;
                                             answer := new_answer |}) with
                      | Raise ex => (Crash ex, s)
                      | Ok knowledge_base' =>
                          let s := with_knowledge_base knowledge_base' s in
                          match save_knowledge_base (s_storage s) "knowledge_base.json"
                                  knowledge_base' with
                          | (Ok _, d) =>
                              chat_loop rest'
                                (emit (Print "GooglBot: Thank you! I learned a new response!")
                                   (with_storage d s))
                          | (Raise ex, d) => (Crash ex, with_storage d s)
                          end
                      end
                end
          end
  end.

End Session.

Arguments s_variables {w} s.
Arguments s_knowledge_base {w} s.
Arguments s_storage {w} s.
Arguments s_output {w} s.
Arguments emit {w} o s.
Arguments with_variables {w} variables s.
Arguments with_knowledge_base {w} knowledge_base s.
Arguments with_storage {w} d s.

(** ** Vocabulary of the further properties *)

(** The names a body can bind: the targets of its single-name
    assignments. *)
Fixpoint assigned_names (body : list stmt) : list string :=
  match body with
  | [] => []
  | Assign [Name x] _ :: rest => x :: assigned_names rest
  | _ :: rest => assigned_names rest
  end.

(** Some node in a position [safe_eval_expr] visits has no case: the
    callee and the arguments of a call count, its keyword arguments do
    not. *)
Fixpoint has_unsupported (e : expr) : bool :=
  unsupported e
  || match e with
     | BinOp l _ r => has_unsupported l || has_unsupported r
     | UnaryOp _ a => has_unsupported a
     | Call f args _ => has_unsupported f || existsb has_unsupported args
     | _ => false
     end.





(** An element of the knowledge base whose question is not [q]. *)
Definition asks_other (q : string) (item : json) : Prop :=
  exists x, getitem item "question" = Ok x /\ eq_str x q = false.





(** Every binding of [s] is still a binding in [s']. *)
Definition keeps_bindings {w : World} (s s' : session w) : Prop :=
  forall x, is_Some (s_variables s !! x) -> is_Some (s_variables s' !! x).

(** A world to run sessions in.  The disk maps a path to the object stored
    there; the parser is the reference parser; [strip] and [lower] treat
    ASCII; [get_close_matches] knows exact matches only. *)
Definition sample_blank (c : ascii) : bool :=
  let n := nat_of_ascii c in
  ((9 <=? n) && (n <=? 13) || (28 <=? n) && (n <=? 32))%nat.

Fixpoint sample_lstrip (s : string) : string :=
  match s with
  | String c s' => if sample_blank c then sample_lstrip s' else s
  | EmptyString => EmptyString
  end.

Fixpoint sample_rstrip (s : string) : string :=
  match s with
  | String c s' =>
      match sample_rstrip s' with
      | EmptyString => if sample_blank c then EmptyString else String c EmptyString
      | t => String c t
      end
  | EmptyString => EmptyString
  end.

Definition sample_strip (s : string) : string := sample_rstrip (sample_lstrip s).

Fixpoint sample_lower (s : string) : string :=
  match s with
  | String c s' =>
      let n := nat_of_ascii c in
      String (if ((65 <=? n) && (n <=? 90))%nat then ascii_of_nat (n + 32) else c)
        (sample_lower s')
  | EmptyString => EmptyString
  end.

Definition sample_str_value (v : value) : outcome string :=
  match v with
  | VInt z => Ok (NilZero.string_of_int (Z.to_int z))
  | VNone => Ok "None"%string
  | _ => Raise (OtherException "NotImplementedError")
  end.

Definition sample_get_close_matches (word : string) (possibilities : list json)
  : outcome (list json) :=
  Ok (match List.find (fun p => eq_str p word) possibilities with
      | Some p => [p]
      | None => []
      end).

Definition sample_world : World :=
  {| disk := gmap string json;
     file := string * json;
     runtime := strict_runtime;
     ast_parse := Fragment.ast_parse;
     strip := sample_strip;
     lower := sample_lower;
     str_value := sample_str_value;
     str_json := fun _ => Raise (OtherException "NotImplementedError");
     get_close_matches := sample_get_close_matches;
     py_eq := fun _ _ => false;
     open_read := fun d path =>
       match d !! path with
       | Some data => Ok (path, data)
       | None => Raise FileNotFoundError
       end;
     json_load := fun f => Ok (snd f);
     open_write := fun d path => (Ok (path, JNull), d);
     json_dump := fun d f data => (Ok tt, <[fst f := data]> d) |}.

Definition sample_session : session sample_world :=
  {| s_variables := ∅; s_knowledge_base := kb_json sample_entries;
     s_storage := ∅; s_output := [] |}.

(** A session in the sample world: an assignment, a sum, an unknown
    question taught with the answer "quit", then quit. *)
Definition sample_inputs : list string :=
  [ "x = 5"; " x + 1 "; "Who are you?"; "quit"; " QUIT "; "never read" ]%string.

(** ** Reasoning principles *)

(** Induction over expressions, with the induction hypothesis available for
    every argument, keyword value and child. *)
Section ExprInduction.
Variable P : expr -> Prop.
Hypothesis HConstant : forall v, P (Constant v).
Hypothesis HName : forall id, P (Name id).
Hypothesis HBinOp : forall l op r, P l -> P r -> P (BinOp l op r).
Hypothesis HUnaryOp : forall op a, P a -> P (UnaryOp op a).
Hypothesis HCall : forall f args kws,
    P f -> Forall P args -> Forall (fun kw => P (snd kw)) kws -> P (Call f args kws).
Hypothesis HAttribute : forall o a, P o -> P (Attribute o a).
Hypothesis HSubscript : forall o i, P o -> P i -> P (Subscript o i).
Hypothesis HStarred : forall a, P a -> P (Starred a).
Hypothesis HOther : forall cls children, Forall P children -> P (OtherExpr cls children).

Fixpoint expr_induction (e : expr) : P e :=
  match e with
  | Constant v => HConstant v
  | Name id => HName id
  | BinOp l op r => HBinOp l op r (expr_induction l) (expr_induction r)
  | UnaryOp op a => HUnaryOp op a (expr_induction a)
  | Call f args kws =>
      HCall f args kws (expr_induction f)
        ((fix all (l : list expr) : Forall P l :=
            match l with
            | [] => List.Forall_nil P
            | a :: l' => @List.Forall_cons _ P a l' (expr_induction a) (all l')
            end) args)
        ((fix all (l : list (option string * expr)) : Forall (fun kw => P (snd kw)) l :=
            match l with
            | [] => List.Forall_nil _
            | kw :: l' => @List.Forall_cons _ (fun kw => P (snd kw)) kw l' (expr_induction (snd kw)) (all l')
            end) kws)
  | Attribute o a => HAttribute o a (expr_induction o)
  | Subscript o i => HSubscript o i (expr_induction o) (expr_induction i)
  | Starred a => HStarred a (expr_induction a)
  | OtherExpr cls children =>
      HOther cls children
        ((fix all (l : list expr) : Forall P l :=
            match l with
            | [] => List.Forall_nil P
            | a :: l' => @List.Forall_cons _ P a l' (expr_induction a) (all l')
            end) children)
  end.
End ExprInduction.

Section EvaluatorFacts.
Variable rt : Runtime.
Variables funcs consts : gmap string value.

#[local] Abbreviation eval := (safe_eval_expr rt funcs consts).
#[local] Abbreviation exec := (exec_stmt rt funcs consts).
#[local] Abbreviation run := (run_body rt funcs consts).
#[local] Abbreviation normally := (run_normally rt funcs consts).

(** The list comprehension inside the [Call] case is [eval_args]. *)
Lemma eval_call_name variables func_name args kws :
  eval variables (Call (Name func_name) args kws) =
  match funcs !! func_name with
  | Some f => vs ← eval_args rt funcs consts variables args; call_value rt f vs
  | None => Raise (ValueError ("Function " ++ func_name ++ " not allowed"))
  end.
Proof.
  cbn [safe_eval_expr]. destruct (funcs !! func_name) as [f|]; [|reflexivity].
  f_equal. induction args as [|arg args IH]; [reflexivity|].
  cbn [eval_args]. rewrite <- IH. reflexivity.
Qed.

Lemma eval_call_other variables func args kws :
  (forall id, func <> Name id) ->
  eval variables (Call func args kws) = Raise AttributeError.
Proof. intros Hf. destruct func; try reflexivity. destruct (Hf id eq_refl). Qed.

(** An argument that raises makes the whole comprehension raise. *)
Lemma eval_args_raises variables args :
  Exists (fun arg => raises (eval variables arg)) args ->
  raises (eval_args rt funcs consts variables args).
Proof.
  induction 1 as [arg args [ex Hex]|arg args _ [ex Hex]]; cbn [eval_args].
  - rewrite Hex. exists ex. reflexivity.
  - destruct (eval variables arg) as [v|ex']; [|exists ex'; reflexivity].
    rewrite Hex. exists ex. reflexivity.
Qed.

Lemma raises_bind_l {A B} (r : outcome A) (k : A -> outcome B) :
  raises r -> raises (r ≫= k).
Proof. intros [ex ->]. exists ex. reflexivity. Qed.

Lemma raises_bind_r {A B} (r : outcome A) (k : A -> outcome B) :
  (forall a, raises (k a)) -> raises (r ≫= k).
Proof. intros H. destruct r as [a|ex]; [apply H|exists ex; reflexivity]. Qed.

(** Whatever the runtime, the registries and the variables: an attribute
    access or a subscript outside keyword arguments makes evaluation
    raise. *)
Lemma positional_access_raises variables e :
  has_positional_access e = true -> raises (eval variables e).
Proof.
  induction e as [v|id|l op r IHl IHr|op a IHa|f args kws IHf IHargs _
                 |o a IHo|o i IHo IHi|a IHa|cls children _] using expr_induction;
    cbn [has_positional_access]; intros H; try discriminate;
    try (eexists; reflexivity).
  - cbn [safe_eval_expr].
    destruct (dict_get (BinClass op) allowed_ops); [|eexists; reflexivity].
    apply orb_true_iff in H as [H|H].
    + apply raises_bind_l, IHl, H.
    + apply raises_bind_r. intros lv. apply raises_bind_l, IHr, H.
  - cbn [safe_eval_expr].
    destruct (dict_get (UnClass op) allowed_ops); [|eexists; reflexivity].
    apply raises_bind_l, IHa, H.
  - destruct f as [|func_name| | | | | | |];
      try (rewrite eval_call_other by discriminate; eexists; reflexivity).
    rewrite eval_call_name.
    destruct (funcs !! func_name); [|eexists; reflexivity].
    apply raises_bind_l, eval_args_raises.
    cbn in H. apply existsb_exists in H as (arg & Hin & Harg).
    apply list_elem_of_In in Hin.
    apply Exists_exists. exists arg. split; [exact Hin|].
    rewrite Forall_forall in IHargs. apply IHargs; [exact Hin|exact Harg].
Qed.

(** Statements that end their turn normally can be run first. *)
Lemma run_body_app pre post result variables result' variables' :
  normally pre result variables = Some (result', variables') ->
  run (pre ++ post) result variables = run post result' variables'.
Proof.
  revert result variables.
  induction pre as [|node pre IH]; intros result variables H; cbn in *.
  - injection H as <- <-. reflexivity.
  - destruct (exec variables node); try discriminate. apply IH, H.
Qed.

Lemma run_normally_app pre post result variables result' variables' :
  normally pre result variables = Some (result', variables') ->
  normally (pre ++ post) result variables = normally post result' variables'.
Proof.
  revert result variables.
  induction pre as [|node pre IH]; intros result variables H; cbn in *.
  - injection H as <- <-. reflexivity.
  - destruct (exec variables node); try discriminate. apply IH, H.
Qed.

(** A body that runs normally to its end returns its last [result]. *)
(** How a run of the loop can end. *)
Lemma run_body_cases body result variables :
  (exists result', run_normally rt funcs consts body result variables
                   = Some (result', snd (run body result variables))
                   /\ fst (run body result variables) = Ok result')
  \/ (exists ex, fst (run body result variables) = Raise ex)
  \/ fst (run body result variables) = Ok (VStr "Invalid assignment")
  \/ fst (run body result variables) = Ok (VStr "Unsupported statement").
Proof.
  revert result variables.
  induction body as [|node body IH]; intros result variables; cbn.
  - left. exists result. split; reflexivity.
  - destruct node as [targets e|e|cls]; cbn [exec_stmt].
    + destruct targets as [|[] [|]]; try (right; right; left; reflexivity).
      destruct (eval variables e) as [v|ex]; [apply IH|].
      right; left. exists ex. reflexivity.
    + destruct (eval variables e) as [v|ex]; [apply IH|].
      right; left. exists ex. reflexivity.
    + right; right; right. reflexivity.
Qed.

Lemma run_body_normally body result variables result' variables' :
  normally body result variables = Some (result', variables') ->
  run body result variables = (Ok result', variables').
Proof.
  intros H. rewrite <- (app_nil_r body). rewrite (run_body_app _ _ _ _ _ _ H).
  reflexivity.
Qed.
End EvaluatorFacts.

(** ** Only the safelist reaches the runtime *)

Section Safelist.
Variables rt1 rt2 : Runtime.
Variables funcs consts : gmap string value.
Hypothesis agree : agree_on_safelist funcs rt1 rt2.

Lemma apply_function_agree f args :
  apply_function rt1 f args = apply_function rt2 f args.
Proof.
  destruct agree as (Hbin & Hun & _).
  assert (Hb : forall op, is_Some (dict_get (BinClass op) allowed_ops) ->
               forall a b, py_binop rt1 op a b = py_binop rt2 op a b)
    by (intros op Hop a b; apply Hbin, Hop).
  assert (Hadd := Hb Add (mk_is_Some _ _ eq_refl)).
  assert (Hsub := Hb Sub (mk_is_Some _ _ eq_refl)).
  assert (Hmul := Hb Mult (mk_is_Some _ _ eq_refl)).
  assert (Hdiv := Hb Div (mk_is_Some _ _ eq_refl)).
  assert (Hpow := Hb Pow (mk_is_Some _ _ eq_refl)).
  assert (Hmod := Hb Mod (mk_is_Some _ _ eq_refl)).
  assert (Hneg := fun a => Hun USub a (mk_is_Some _ _ eq_refl)).
  destruct f; destruct args as [|a [|b [|c args]]]; try reflexivity;
    cbn [apply_function];
    unfold add, sub, mul, truediv, pow, mod_, neg;
    try (destruct a, b); try (destruct a); auto;
    repeat match goal with |- context [if ?c then _ else _] => destruct c end;
    auto.
Qed.

Lemma call_value_agree id f vs :
  funcs !! id = Some f -> call_value rt1 f vs = call_value rt2 f vs.
Proof.
  destruct agree as (_ & _ & Hmath). intros Hid.
  destruct f; try reflexivity. cbn [call_value]. unfold math_call.
  pose proof (Hmath id name) as H.
  destruct vs as [|[] [|[] [|]]]; auto.
  destruct (String.eqb name "gcd"); auto.
Qed.

Lemma safe_eval_expr_agree variables e :
  safe_eval_expr rt1 funcs consts variables e
  = safe_eval_expr rt2 funcs consts variables e.
Proof.
  induction e as [v|id|l op r IHl IHr|op a IHa|f args kws _ IHargs _
                 |o a _|o i _ _|a _|cls children _] using expr_induction;
    try reflexivity.
  - cbn [safe_eval_expr]. destruct (dict_get (BinClass op) allowed_ops); [|reflexivity].
    rewrite IHl, IHr.
    destruct (safe_eval_expr rt2 funcs consts variables l); [|reflexivity].
    destruct (safe_eval_expr rt2 funcs consts variables r); [|reflexivity].
    apply apply_function_agree.
  - cbn [safe_eval_expr]. destruct (dict_get (UnClass op) allowed_ops); [|reflexivity].
    rewrite IHa.
    destruct (safe_eval_expr rt2 funcs consts variables a); [|reflexivity].
    apply apply_function_agree.
  - destruct f as [|func_name| | | | | | |]; try reflexivity.
    rewrite !eval_call_name.
    destruct (funcs !! func_name) as [f|] eqn:Hf; [|reflexivity].
    assert (Hargs : eval_args rt1 funcs consts variables args
                    = eval_args rt2 funcs consts variables args).
    { induction IHargs as [|arg args Harg _ IH]; [reflexivity|].
      cbn [eval_args]. rewrite Harg, IH. reflexivity. }
    rewrite Hargs.
    destruct (eval_args rt2 funcs consts variables args); [|reflexivity].
    apply (call_value_agree func_name), Hf.
Qed.

Lemma exec_stmt_agree variables node :
  exec_stmt rt1 funcs consts variables node
  = exec_stmt rt2 funcs consts variables node.
Proof.
  destruct node as [targets e|e|cls]; cbn [exec_stmt];
    rewrite ?safe_eval_expr_agree; reflexivity.
Qed.

Lemma run_body_agree body result variables :
  run_body rt1 funcs consts body result variables
  = run_body rt2 funcs consts body result variables.
Proof.
  revert result variables.
  induction body as [|node body IH]; intros result variables; [reflexivity|].
  cbn [run_body]. rewrite exec_stmt_agree.
  destruct (exec_stmt rt2 funcs consts variables node); auto.
Qed.
End Safelist.

(** ** The boundary of [solve_math_expression] *)

Section SolverFacts.
Variable ast_parse : string -> outcome (list stmt).
Variable rt : Runtime.
Variables funcs consts : gmap string value.

#[local] Abbreviation solve := (solve_math_expression ast_parse rt funcs consts).
#[local] Abbreviation parsed expr := (ast_parse (replace expr "^" "**")).

Lemma solve_parse_error expr variables ex :
  parsed expr = Raise ex -> solve expr variables = (VNone, variables).
Proof. intros H. unfold solve_math_expression. rewrite H. reflexivity. Qed.

(** The statements before [node] ran normally and [node] raises: the
    exception is swallowed. *)
Lemma solve_raised expr variables pre node post result variables' ex :
  parsed expr = Ok (pre ++ node :: post) ->
  run_normally rt funcs consts pre VNone variables = Some (result, variables') ->
  exec_stmt rt funcs consts variables' node = Raised ex ->
  solve expr variables = (VNone, variables').
Proof.
  intros Hp Hpre Hnode. unfold solve_math_expression. rewrite Hp.
  rewrite (run_body_app _ _ _ _ _ _ _ _ _ Hpre). cbn [run_body].
  rewrite Hnode. reflexivity.
Qed.

(** The statements before [node] ran normally and [node] makes the
    function return [v]. *)
Lemma solve_returned expr variables pre node post result variables' v :
  parsed expr = Ok (pre ++ node :: post) ->
  run_normally rt funcs consts pre VNone variables = Some (result, variables') ->
  exec_stmt rt funcs consts variables' node = Return v ->
  solve expr variables = (v, variables').
Proof.
  intros Hp Hpre Hnode. unfold solve_math_expression. rewrite Hp.
  rewrite (run_body_app _ _ _ _ _ _ _ _ _ Hpre). cbn [run_body].
  rewrite Hnode. reflexivity.
Qed.

(** Every statement ran normally: the last [result] is returned. *)
Lemma solve_completed expr variables body result variables' :
  parsed expr = Ok body ->
  run_normally rt funcs consts body VNone variables = Some (result, variables') ->
  solve expr variables = (result, variables').
Proof.
  intros Hp Hbody. unfold solve_math_expression. rewrite Hp.
  rewrite (run_body_normally _ _ _ _ _ _ _ _ Hbody). reflexivity.
Qed.

Lemma exec_invalid_targets variables targets e :
  invalid_targets targets = true ->
  exec_stmt rt funcs consts variables (Assign targets e)
  = Return (VStr "Invalid assignment").
Proof.
  intros H. cbn [exec_stmt].
  destruct targets as [|[] [|]]; try reflexivity. discriminate.
Qed.

(** C1, as amended: [solve_math_expression] is a total function, so no
    exception leaves it.  It returns [None] when parsing raises, and when
    the first statement that does not end normally raises (an unknown
    identifier, a function outside the registry, a division by zero, any
    other exception).  When that statement is an assignment whose targets
    are not one single name it returns the string "Invalid assignment", and
    when it is neither an assignment nor an expression it returns the
    string "Unsupported statement".  In each case [variables] keeps what
    the statements before it assigned.  There is no other outcome: the value
    returned is the result of a body that ran to its end, or [None], or one
    of the two strings. *)
Theorem solve_math_expression_failure expr variables :
  (forall ex, parsed expr = Raise ex -> solve expr variables = (VNone, variables))
  /\ (forall pre node post result variables',
        parsed expr = Ok (pre ++ node :: post) ->
        run_normally rt funcs consts pre VNone variables = Some (result, variables') ->
        (forall ex, exec_stmt rt funcs consts variables' node = Raised ex ->
           solve expr variables = (VNone, variables'))
        /\ (forall targets e, node = Assign targets e ->
              invalid_targets targets = true ->
              solve expr variables = (VStr "Invalid assignment", variables'))
        /\ (forall cls, node = OtherStmt cls ->
              solve expr variables = (VStr "Unsupported statement", variables')))
  /\ ((exists body,
         parsed expr = Ok body
         /\ run_normally rt funcs consts body VNone variables
            = Some (solve expr variables))
      \/ fst (solve expr variables) = VNone
      \/ fst (solve expr variables) = VStr "Invalid assignment"
      \/ fst (solve expr variables) = VStr "Unsupported statement").
Proof.
  split; [intros ex; apply solve_parse_error|split].
  - intros pre node post result variables' Hp Hpre. repeat split.
    + intros ex. apply (solve_raised _ _ _ _ _ _ _ _ Hp Hpre).
    + intros targets e -> Ht.
      apply (solve_returned _ _ _ _ _ _ _ _ Hp Hpre), exec_invalid_targets, Ht.
    + intros cls ->. apply (solve_returned _ _ _ _ _ _ _ _ Hp Hpre). reflexivity.
  - unfold solve_math_expression.
    destruct (parsed expr) as [body|ex]; [|right; left; reflexivity].
    pose proof (run_body_cases rt funcs consts body VNone variables) as Hc.
    destruct (run_body rt funcs consts body VNone variables) as [o variables'].
    cbn [fst snd] in Hc.
    destruct Hc as [(r & Hn & ->)|[(ex & ->)|[->| ->]]]; cbn [fst].
    + left. exists body. split; [reflexivity|exact Hn].
    + right; left. reflexivity.
    + right; right; left. reflexivity.
    + right; right; right. reflexivity.
Qed.
End SolverFacts.

(** The causes of failure the evaluator names itself. *)
Lemma unknown_identifier_raises rt funcs consts variables id :
  variables !! id = None -> funcs !! id = None -> consts !! id = None ->
  safe_eval_expr rt funcs consts variables (Name id)
  = Raise (ValueError ("Unknown variable or function: " ++ id)).
Proof. intros Hv Hf Hc. cbn. rewrite Hv, Hf, Hc. reflexivity. Qed.

Lemma disallowed_function_raises rt funcs consts variables func_name args kws :
  funcs !! func_name = None ->
  safe_eval_expr rt funcs consts variables (Call (Name func_name) args kws)
  = Raise (ValueError ("Function " ++ func_name ++ " not allowed")).
Proof. intros Hf. rewrite eval_call_name, Hf. reflexivity. Qed.

Lemma division_by_zero_raises rt funcs consts variables l r a :
  safe_eval_expr rt funcs consts variables l = Ok (VInt a) ->
  safe_eval_expr rt funcs consts variables r = Ok (VInt 0) ->
  safe_eval_expr rt funcs consts variables (BinOp l Div r) = Raise ZeroDivisionError
  /\ safe_eval_expr rt funcs consts variables (BinOp l Mod r) = Raise ZeroDivisionError.
Proof. intros Hl Hr. cbn. rewrite Hl, Hr. split; reflexivity. Qed.

(** Sample texts and their syntax trees. *)
Example parse_chained_assignment :
  Fragment.parse "a = b = 1" = Some [Assign [Name "a"; Name "b"] (Constant (VInt 1))].
Proof. vm_compute. reflexivity. Qed.

Example parse_import : Fragment.parse "import os" = Some [OtherStmt "Import"].
Proof. vm_compute. reflexivity. Qed.

Example parse_assign_then_divide :
  Fragment.parse "x = 5; 1/0"
  = Some [Assign [Name "x"] (Constant (VInt 5));
          Expr (BinOp (Constant (VInt 1)) Div (Constant (VInt 0)))].
Proof. vm_compute. reflexivity. Qed.

(** C1, counterexample: a chained assignment and an import statement do not
    evaluate, and the value returned is a string, not [None]; the session
    loop prints it instead of going on to the knowledge base. *)
Lemma solve_math_expression_failure_strings :
  (forall rt variables,
      solve_math_expression Fragment.ast_parse rt allowed_funcs constants
        "a = b = 1" variables = (VStr "Invalid assignment", variables))
  /\ (forall rt variables,
        solve_math_expression Fragment.ast_parse rt allowed_funcs constants
          "import os" variables = (VStr "Unsupported statement", variables))
  /\ is_not_None (VStr "Invalid assignment") = true
  /\ is_not_None (VStr "Unsupported statement") = true.
Proof.
  split; [|split; [|split; reflexivity]];
    intros rt variables; vm_compute; reflexivity.
Qed.

(** C1, witness: in [x = 5; y] the first statement runs and the second
    names an unknown identifier. *)
Lemma solve_math_expression_failure_witness :
  solve_math_expression Fragment.ast_parse strict_runtime allowed_funcs constants
    "x = 5; y" ∅ = (VNone, <["x" := VInt 5]> ∅).
Proof.
  destruct (solve_math_expression_failure Fragment.ast_parse strict_runtime
              allowed_funcs constants "x = 5; y" ∅) as (_ & H & _).
  destruct (H [Assign [Name "x"] (Constant (VInt 5))] (Expr (Name "y")) []
              (VInt 5) (<["x" := VInt 5]> ∅)) as [Hraise _].
  - vm_compute. reflexivity.
  - vm_compute. reflexivity.
  - apply (Hraise (ValueError "Unknown variable or function: y")).
    vm_compute. reflexivity.
Defined.

(** ** Unsafe constructs *)

Example parse_import_call :
  Fragment.parse "__import__('os')"
  = Some [Expr (Call (Name "__import__") [Constant (VStr "os")] [])].
Proof. vm_compute. reflexivity. Qed.

Example parse_keyword_access :
  Fragment.parse "gcd(4, 6, k=a.b)"
  = Some [Expr (Call (Name "gcd") [Constant (VInt 4); Constant (VInt 6)]
                  [(Some "k", Attribute (Name "a") "b")])].
Proof. vm_compute. reflexivity. Qed.

Example parse_attribute : Fragment.parse "x.real" = Some [Expr (Attribute (Name "x") "real")].
Proof. vm_compute. reflexivity. Qed.

(** A statement whose expression raises ends with that exception. *)
Lemma exec_stmt_raises rt funcs consts variables node e :
  node = Expr e \/ (exists x, node = Assign [Name x] e) ->
  raises (safe_eval_expr rt funcs consts variables e) ->
  exists ex, exec_stmt rt funcs consts variables node = Raised ex.
Proof.
  intros [->|[x ->]] [ex Hex]; exists ex; cbn [exec_stmt]; rewrite Hex; reflexivity.
Qed.

Lemma solve_math_expression_agree ast_parse rt1 rt2 funcs consts expr variables :
  agree_on_safelist funcs rt1 rt2 ->
  solve_math_expression ast_parse rt1 funcs consts expr variables
  = solve_math_expression ast_parse rt2 funcs consts expr variables.
Proof.
  intros H. unfold solve_math_expression.
  destruct (ast_parse _); [|reflexivity].
  rewrite (run_body_agree rt1 rt2 funcs consts H). reflexivity.
Qed.

(** C2, as amended: whatever the runtime, the registries and the variables,
    (a) when the first statement that does not end normally is an
    expression statement or a single-name assignment whose expression has an
    attribute access or a subscript outside the keyword arguments of calls,
    [solve_math_expression] returns [None]; (b) when it is an assignment to
    an attribute or to a subscript, [solve_math_expression] returns the
    string "Invalid assignment"; (c) [__import__('os')] returns [None];
    (d) the result depends on the runtime only through the operators of
    [allowed_ops] and the functions registered in [allowed_funcs]: two
    runtimes that agree on those give the same result and the same
    variables, whatever they do elsewhere. *)
Theorem evaluation_stays_in_safelist ast_parse rt funcs consts expr variables :
  (forall pre node post result variables' e,
      ast_parse (replace expr "^" "**") = Ok (pre ++ node :: post) ->
      run_normally rt funcs consts pre VNone variables = Some (result, variables') ->
      node = Expr e \/ (exists x, node = Assign [Name x] e) ->
      has_positional_access e = true ->
      solve_math_expression ast_parse rt funcs consts expr variables
      = (VNone, variables'))
  /\ (forall pre target e post result variables',
        ast_parse (replace expr "^" "**") = Ok (pre ++ Assign [target] e :: post) ->
        run_normally rt funcs consts pre VNone variables = Some (result, variables') ->
        (exists o a, target = Attribute o a) \/ (exists o i, target = Subscript o i) ->
        solve_math_expression ast_parse rt funcs consts expr variables
        = (VStr "Invalid assignment", variables'))
  /\ solve_math_expression Fragment.ast_parse rt allowed_funcs constants
       "__import__('os')" variables = (VNone, variables)
  /\ (forall rt', agree_on_safelist funcs rt rt' ->
        solve_math_expression ast_parse rt' funcs consts expr variables
        = solve_math_expression ast_parse rt funcs consts expr variables).
Proof.
  split; [|split; [|split]].
  - intros pre node post result variables' e Hp Hpre Hnode Hacc.
    destruct (exec_stmt_raises rt funcs consts variables' node e Hnode) as [ex Hex].
    { apply positional_access_raises, Hacc. }
    apply (solve_raised _ _ _ _ _ _ _ _ _ _ _ ex Hp Hpre Hex).
  - intros pre target e post result variables' Hp Hpre Htarget.
    apply (solve_returned _ _ _ _ _ _ _ _ _ _ _ _ Hp Hpre).
    destruct Htarget as [(o & a & ->)|(o & i & ->)]; reflexivity.
  - unfold solve_math_expression.
    assert (Fragment.ast_parse (replace "__import__('os')" "^" "**")
            = Ok [Expr (Call (Name "__import__") [Constant (VStr "os")] [])]) as ->
      by (vm_compute; reflexivity).
    cbn [run_body exec_stmt].
    rewrite disallowed_function_raises by (vm_compute; reflexivity).
    reflexivity.
  - intros rt' H. symmetry. apply solve_math_expression_agree, H.
Qed.

Example parse_attribute_target :
  Fragment.parse "a.b = 1" = Some [Assign [Attribute (Name "a") "b"] (Constant (VInt 1))].
Proof. vm_compute. reflexivity. Qed.

(** C2, counterexample: the text [gcd(4, 6, k=a.b)] contains an attribute
    access and evaluates to 2, because [safe_eval_expr] never looks at the
    keyword arguments of a call; and the text [a.b = 1], an attribute access
    in target position, returns the string "Invalid assignment" instead of
    [None]. *)
Lemma access_without_soft_failure :
  has_access (Call (Name "gcd") [Constant (VInt 4); Constant (VInt 6)]
                [(Some "k", Attribute (Name "a") "b")]) = true
  /\ (forall rt variables,
        solve_math_expression Fragment.ast_parse rt allowed_funcs constants
          "gcd(4, 6, k=a.b)" variables = (VInt 2, variables))
  /\ VInt 2 <> VNone
  /\ (forall rt variables,
        solve_math_expression Fragment.ast_parse rt allowed_funcs constants
          "a.b = 1" variables = (VStr "Invalid assignment", variables)).
Proof.
  split; [reflexivity|split; [|split; [discriminate|]]];
    intros rt variables; vm_compute; reflexivity.
Qed.

(** C2, witness: [x.real] is an attribute access in an expression
    statement; a runtime that accepts every operation makes no difference. *)
Lemma evaluation_stays_in_safelist_witness :
  solve_math_expression Fragment.ast_parse lenient_runtime allowed_funcs constants
    "x.real" (<["x" := VInt 5]> ∅) = (VNone, <["x" := VInt 5]> ∅).
Proof.
  destruct (evaluation_stays_in_safelist Fragment.ast_parse lenient_runtime
              allowed_funcs constants "x.real" (<["x" := VInt 5]> ∅)) as [H _].
  apply (H [] (Expr (Attribute (Name "x") "real")) [] VNone (<["x" := VInt 5]> ∅)
           (Attribute (Name "x") "real")).
  - vm_compute. reflexivity.
  - reflexivity.
  - left. reflexivity.
  - reflexivity.
Defined.

(** ** Identifiers *)

(** C3: a bare identifier is looked up in the Variable Table, then in the
    Function Registry (whose object is returned as it is), then in the
    Constant Registry; a name none of them knows raises [ValueError], which
    [solve_math_expression] turns into [None]. *)
Theorem identifier_resolution rt funcs consts variables id :
  safe_eval_expr rt funcs consts variables (Name id)
  = match resolve_by_priority [variables; funcs; consts] id with
    | Some v => Ok v
    | None => Raise (ValueError ("Unknown variable or function: " ++ id))
    end
  /\ (forall v, variables !! id = Some v ->
        safe_eval_expr rt funcs consts variables (Name id) = Ok v)
  /\ (forall f, variables !! id = None -> funcs !! id = Some f ->
        safe_eval_expr rt funcs consts variables (Name id) = Ok f)
  /\ (forall c, variables !! id = None -> funcs !! id = None -> consts !! id = Some c ->
        safe_eval_expr rt funcs consts variables (Name id) = Ok c)
  /\ (variables !! id = None -> funcs !! id = None -> consts !! id = None ->
      forall ast_parse expr,
        ast_parse (replace expr "^" "**") = Ok [Expr (Name id)] ->
        solve_math_expression ast_parse rt funcs consts expr variables
        = (VNone, variables)).
Proof.
  unfold resolve_by_priority. cbn [safe_eval_expr omap list_omap head].
  split; [|repeat split].
  - destruct (variables !! id), (funcs !! id), (consts !! id); reflexivity.
  - intros v ->. reflexivity.
  - intros f -> ->. reflexivity.
  - intros c -> -> ->. reflexivity.
  - intros Hv Hf Hc ast_parse expr Hp.
    apply (solve_raised ast_parse rt funcs consts expr variables [] (Expr (Name id)) []
             VNone variables (ValueError ("Unknown variable or function: " ++ id)) Hp eq_refl).
    cbn [exec_stmt]. rewrite unknown_identifier_raises by assumption. reflexivity.
Qed.

(** C3, witness: with the name [n] in all three tables the variable wins;
    without the variable the function wins; [c] is only a constant; [z] is
    unknown. *)
Lemma identifier_resolution_witness :
  safe_eval_expr strict_runtime sample_funcs sample_consts (<["n" := VInt 1]> ∅)
    (Name "n") = Ok (VInt 1)
  /\ safe_eval_expr strict_runtime sample_funcs sample_consts ∅ (Name "n")
     = Ok (VBuiltin "n")
  /\ safe_eval_expr strict_runtime sample_funcs sample_consts ∅ (Name "c")
     = Ok (VInt 4)
  /\ solve_math_expression Fragment.ast_parse strict_runtime sample_funcs
       sample_consts "z" ∅ = (VNone, ∅).
Proof.
  split; [|split; [|split]].
  - destruct (identifier_resolution strict_runtime sample_funcs sample_consts
                (<["n" := VInt 1]> ∅) "n") as (_ & H & _).
    apply H; reflexivity.
  - destruct (identifier_resolution strict_runtime sample_funcs sample_consts ∅ "n")
      as (_ & _ & H & _).
    apply H; reflexivity.
  - destruct (identifier_resolution strict_runtime sample_funcs sample_consts ∅ "c")
      as (_ & _ & _ & H & _).
    apply H; reflexivity.
  - destruct (identifier_resolution strict_runtime sample_funcs sample_consts ∅ "z")
      as (_ & _ & _ & _ & H).
    apply H; reflexivity.
Defined.

(** ** Constructs without a case *)

Example parse_string_sum :
  Fragment.parse "'a' + 'b'"
  = Some [Expr (BinOp (Constant (VStr "a")) Add (Constant (VStr "b")))].
Proof. vm_compute. reflexivity. Qed.

Lemma unsupported_raises rt funcs consts variables e :
  unsupported e = true ->
  safe_eval_expr rt funcs consts variables e = Raise (ValueError "Unsupported expression").
Proof.
  destruct e; cbn [unsupported safe_eval_expr]; intros H; try discriminate;
    try reflexivity.
  - destruct (dict_get (BinClass op) allowed_ops); [|reflexivity].
    rewrite bool_decide_eq_true_2 in H by (eexists; reflexivity). discriminate.
  - destruct (dict_get (UnClass op) allowed_ops); [|reflexivity].
    rewrite bool_decide_eq_true_2 in H by (eexists; reflexivity). discriminate.
Qed.

(** C4, as amended: attribute access, subscripting, starred expressions,
    every other expression class and operators outside [allowed_ops] raise
    [ValueError("Unsupported expression")]; a call whose callee is not a
    bare name raises [AttributeError]; an assignment whose targets are not
    one single name makes [solve_math_expression] return "Invalid
    assignment", and a statement that is neither an assignment nor an
    expression makes it return "Unsupported statement".  A constant of any
    type evaluates to itself, and the sum of two string literals to their
    concatenation. *)
Theorem constructs_without_a_case rt funcs consts variables :
  (forall e, unsupported e = true ->
     safe_eval_expr rt funcs consts variables e
     = Raise (ValueError "Unsupported expression"))
  /\ (forall func args kws, (forall id, func <> Name id) ->
        safe_eval_expr rt funcs consts variables (Call func args kws)
        = Raise AttributeError)
  /\ (forall targets e, invalid_targets targets = true ->
        exec_stmt rt funcs consts variables (Assign targets e)
        = Return (VStr "Invalid assignment"))
  /\ (forall cls,
        exec_stmt rt funcs consts variables (OtherStmt cls)
        = Return (VStr "Unsupported statement"))
  /\ (forall v, safe_eval_expr rt funcs consts variables (Constant v) = Ok v)
  /\ (forall s t,
        safe_eval_expr rt funcs consts variables
          (BinOp (Constant (VStr s)) Add (Constant (VStr t))) = Ok (VStr (s ++ t))).
Proof.
  split; [|split; [|split; [|split; [|split]]]].
  - intros e. apply unsupported_raises.
  - intros func args kws. apply eval_call_other.
  - intros targets e. apply exec_invalid_targets.
  - reflexivity.
  - reflexivity.
  - reflexivity.
Qed.

(** C4, counterexample: a string literal and a sum of string literals
    produce values. *)
Lemma string_literals_evaluate :
  (forall rt variables,
      solve_math_expression Fragment.ast_parse rt allowed_funcs constants
        "'abc'" variables = (VStr "abc", variables))
  /\ (forall rt variables,
        solve_math_expression Fragment.ast_parse rt allowed_funcs constants
          "'a' + 'b'" variables = (VStr "ab", variables)).
Proof. split; intros rt variables; vm_compute; reflexivity. Qed.

(** C4, witness: a subscript, a call through an attribute, a tuple
    target. *)
Lemma constructs_without_a_case_witness :
  safe_eval_expr strict_runtime allowed_funcs constants ∅
    (Subscript (Name "x") (Constant (VInt 0)))
  = Raise (ValueError "Unsupported expression")
  /\ safe_eval_expr strict_runtime allowed_funcs constants ∅
       (Call (Attribute (Name "os") "system") [Constant (VStr "ls")] [])
     = Raise AttributeError
  /\ exec_stmt strict_runtime allowed_funcs constants ∅
       (Assign [OtherExpr "Tuple" [Name "a"; Name "b"]] (Constant (VInt 1)))
     = Return (VStr "Invalid assignment").
Proof.
  pose proof (constructs_without_a_case strict_runtime allowed_funcs constants ∅)
    as (Hexpr & Hcall & Hassign & _).
  split; [|split].
  - apply Hexpr. reflexivity.
  - apply Hcall. discriminate.
  - apply Hassign. reflexivity.
Defined.

(** ** Statements in order *)

Example parse_assignment :
  Fragment.parse "x = 5" = Some [Assign [Name "x"] (Constant (VInt 5))].
Proof. vm_compute. reflexivity. Qed.

Example parse_sum :
  Fragment.parse "x + 1" = Some [Expr (BinOp (Name "x") Add (Constant (VInt 1)))].
Proof. vm_compute. reflexivity. Qed.

(** C5: statements run one after the other, each in the variables the
    statements before it left; a single-name assignment binds the value of
    its right-hand side and has that value as its result; the call returns
    the result of the last statement. *)
Theorem statements_run_in_order ast_parse rt funcs consts expr variables
    pre node result variables' :
  ast_parse (replace expr "^" "**") = Ok (pre ++ [node]) ->
  run_normally rt funcs consts pre VNone variables = Some (result, variables') ->
  (forall body1 body2 result1 variables1,
      pre = body1 ++ body2 ->
      run_normally rt funcs consts body1 VNone variables = Some (result1, variables1) ->
      run_normally rt funcs consts body2 result1 variables1 = Some (result, variables'))
  /\ run_normally rt funcs consts (pre ++ [node]) VNone variables
     = match exec_stmt rt funcs consts variables' node with
       | Next result'' variables'' => Some (result'', variables'')
       | _ => None
       end
  /\ (forall x e v, node = Assign [Name x] e ->
        safe_eval_expr rt funcs consts variables' e = Ok v ->
        solve_math_expression ast_parse rt funcs consts expr variables
        = (v, <[x := v]> variables')
        /\ <[x := v]> variables' !! x = Some v)
  /\ (forall e v, node = Expr e ->
        safe_eval_expr rt funcs consts variables' e = Ok v ->
        solve_math_expression ast_parse rt funcs consts expr variables
        = (v, variables')).
Proof.
  intros Hp Hpre.
  assert (Hlast : run_normally rt funcs consts (pre ++ [node]) VNone variables
                  = match exec_stmt rt funcs consts variables' node with
                    | Next result'' variables'' => Some (result'', variables'')
                    | _ => None
                    end).
  { rewrite (run_normally_app _ _ _ _ _ _ _ _ _ Hpre). cbn [run_normally].
    destruct (exec_stmt rt funcs consts variables' node); reflexivity. }
  split; [|split; [exact Hlast|split]].
  - intros body1 body2 result1 variables1 -> H1.
    rewrite (run_normally_app _ _ _ _ _ _ _ _ _ H1) in Hpre. exact Hpre.
  - intros x e v -> He. split; [|apply lookup_insert_eq].
    apply (solve_completed _ _ _ _ _ _ _ _ _ Hp).
    rewrite Hlast. cbn [exec_stmt]. rewrite He. reflexivity.
  - intros e v -> He.
    apply (solve_completed _ _ _ _ _ _ _ _ _ Hp).
    rewrite Hlast. cbn [exec_stmt]. rewrite He. reflexivity.
Qed.

(** C5, witness: [x = 5] and then [x + 1] in the variables it left. *)
Lemma statements_run_in_order_witness :
  solve_math_expression Fragment.ast_parse strict_runtime allowed_funcs constants
    "x = 5" ∅ = (VInt 5, <["x" := VInt 5]> ∅)
  /\ solve_math_expression Fragment.ast_parse strict_runtime allowed_funcs constants
       "x + 1" (<["x" := VInt 5]> ∅) = (VInt 6, <["x" := VInt 5]> ∅).
Proof.
  split.
  - destruct (statements_run_in_order Fragment.ast_parse strict_runtime allowed_funcs
                constants "x = 5" ∅ [] (Assign [Name "x"] (Constant (VInt 5))) VNone ∅)
      as (_ & _ & H & _); [vm_compute; reflexivity|reflexivity|].
    apply (H "x" (Constant (VInt 5)) (VInt 5)); reflexivity.
  - destruct (statements_run_in_order Fragment.ast_parse strict_runtime allowed_funcs
                constants "x + 1" (<["x" := VInt 5]> ∅) []
                (Expr (BinOp (Name "x") Add (Constant (VInt 1)))) VNone
                (<["x" := VInt 5]> ∅))
      as (_ & _ & _ & H); [vm_compute; reflexivity|reflexivity|].
    apply (H (BinOp (Name "x") Add (Constant (VInt 1))) (VInt 6)); reflexivity.
Defined.

(** ** The caret *)

Lemma replace_caret_spec s : replace s "^" "**" = caret_to_power s.
Proof.
  unfold caret_to_power. induction s as [|c s IH]; [reflexivity|].
  cbn [replace list_ascii_of_string flat_map].
  destruct (Ascii.eqb c "^"); cbn; rewrite IH; reflexivity.
Qed.

Lemma replace_no_caret s :
  forallb (fun c => negb (Ascii.eqb c "^")) (list_ascii_of_string (replace s "^" "**"))
  = true.
Proof.
  induction s as [|c s IH]; [reflexivity|].
  cbn [replace]. destruct (Ascii.eqb c "^") eqn:Hc; cbn; [exact IH|].
  rewrite Hc, IH. reflexivity.
Qed.

Lemma replace_without_caret s :
  forallb (fun c => negb (Ascii.eqb c "^")) (list_ascii_of_string s) = true ->
  replace s "^" "**" = s.
Proof.
  induction s as [|c s IH]; [reflexivity|].
  cbn. destruct (Ascii.eqb c "^"); cbn; [discriminate|].
  intros H. rewrite IH by exact H. reflexivity.
Qed.

Example parse_quoted_power : Fragment.parse "'a**b'" = Some [Expr (Constant (VStr "a**b"))].
Proof. vm_compute. reflexivity. Qed.

Example parse_power :
  Fragment.parse "2**3" = Some [Expr (BinOp (Constant (VInt 2)) Pow (Constant (VInt 3)))].
Proof. vm_compute. reflexivity. Qed.

(** C6: the text handed to the parser is the input with every [^] replaced
    by [**], wherever it stands: no caret is left, and the call on [expr] is
    the call on the substituted text.  [2^3] evaluates to 8, and the caret
    inside the string literal ['a^b'] is replaced as well. *)
Theorem caret_is_power ast_parse rt funcs consts :
  (forall s, replace s "^" "**" = caret_to_power s)
  /\ (forall s,
        forallb (fun c => negb (Ascii.eqb c "^"))
          (list_ascii_of_string (replace s "^" "**")) = true)
  /\ (forall expr variables,
        solve_math_expression ast_parse rt funcs consts expr variables
        = solve_math_expression ast_parse rt funcs consts (caret_to_power expr) variables)
  /\ (forall variables,
        solve_math_expression Fragment.ast_parse rt allowed_funcs constants
          "2^3" variables = (VInt 8, variables))
  /\ (forall variables,
        solve_math_expression Fragment.ast_parse rt allowed_funcs constants
          "'a^b'" variables = (VStr "a**b", variables)).
Proof.
  split; [exact replace_caret_spec|split; [exact replace_no_caret|split; [|split]]].
  - intros expr variables. unfold solve_math_expression.
    rewrite <- replace_caret_spec.
    rewrite (replace_without_caret (replace expr "^" "**")) by apply replace_no_caret.
    reflexivity.
  - intros variables. vm_compute. reflexivity.
  - intros variables. vm_compute. reflexivity.
Qed.

(** ** The registries built from the [math] module *)

(** C9: [tau], [inf] and [nan] are entries of the Function Registry and
    evaluate to their float values, and so do [pi] and [e], whatever the
    Constant Registry holds; the Constant Registry itself knows [pi] and [e]
    only. *)
Theorem math_constants_are_registered_functions rt consts' variables name v :
  In (name, v)
    [ ("tau", VFloat math_tau); ("inf", VFloat math_inf); ("nan", VFloat math_nan);
      ("pi", VFloat math_pi); ("e", VFloat math_e) ]%string ->
  variables !! name = None ->
  allowed_funcs !! name = Some v
  /\ safe_eval_expr rt allowed_funcs consts' variables (Name name) = Ok v
  /\ (forall id, is_Some (constants !! id) <-> id = "pi"%string \/ id = "e"%string).
Proof.
  intros Hin Hvar.
  assert (Hf : allowed_funcs !! name = Some v).
  { cbn in Hin.
    destruct Hin as [H|[H|[H|[H|[H|[]]]]]]; injection H as <- <-;
      vm_compute; reflexivity. }
  split; [exact Hf|split].
  - cbn [safe_eval_expr]. rewrite Hvar, Hf. reflexivity.
  - intros id. unfold constants. split.
    + intros [c Hc].
      destruct (decide (id = "e"%string)) as [->|Hne]; [right; reflexivity|].
      rewrite lookup_insert_ne in Hc by congruence.
      destruct (decide (id = "pi"%string)) as [->|Hnpi]; [left; reflexivity|].
      rewrite lookup_insert_ne in Hc by congruence.
      rewrite lookup_empty in Hc. discriminate.
    + intros [->| ->]; eexists; vm_compute; reflexivity.
Qed.

(** C9, witness: [tau] with no variable of that name. *)
Lemma math_constants_are_registered_functions_witness :
  safe_eval_expr strict_runtime allowed_funcs ∅ ∅ (Name "tau") = Ok (VFloat math_tau).
Proof.
  apply (math_constants_are_registered_functions strict_runtime ∅ ∅ "tau"
           (VFloat math_tau)).
  - left. reflexivity.
  - reflexivity.
Defined.

(** ** Failure is not atomic *)

(** C10: in [x = 5; 1/0] the assignment runs and the division raises; the
    call returns [None] and [x] stays bound to 5. *)
Theorem failure_keeps_earlier_assignment rt variables :
  solve_math_expression Fragment.ast_parse rt allowed_funcs constants
    "x = 5; 1/0" variables = (VNone, <["x" := VInt 5]> variables)
  /\ <["x" := VInt 5]> variables !! "x" = Some (VInt 5).
Proof.
  split; [|apply lookup_insert_eq].
  apply (solve_raised Fragment.ast_parse rt allowed_funcs constants "x = 5; 1/0"
           variables [Assign [Name "x"] (Constant (VInt 5))]
           (Expr (BinOp (Constant (VInt 1)) Div (Constant (VInt 0)))) []
           (VInt 5) (<["x" := VInt 5]> variables) ZeroDivisionError).
  - vm_compute. reflexivity.
  - reflexivity.
  - reflexivity.
Qed.

(** ** Loading the knowledge base *)

Section LoadFacts.
Variable file : Type.
Variable open : string -> outcome file.
Variable json_load : file -> outcome json.
(** [json.load] reads a file that is already open: whatever it raises, it
    is not [FileNotFoundError]. *)
Hypothesis json_load_found : forall f, json_load f <> Raise FileNotFoundError.

#[local] Abbreviation load := (load_knowledge_base file open json_load).

Lemma read_missing path :
  read_knowledge_base file open json_load path = Raise FileNotFoundError <->
  open path = Raise FileNotFoundError.
Proof.
  unfold read_knowledge_base. split.
  - destruct (open path) as [f|ex]; cbn.
    + intros H. destruct (json_load_found f H).
    + intros H. injection H as ->. reflexivity.
  - intros ->. reflexivity.
Qed.

(** C7: a file that opens and parses gives the parsed structure; a missing
    file gives [{"questions": []}]; every other exception, from [open] or
    from [json.load], reaches the caller; and a structure is returned only in
    the first two cases. *)
Theorem load_knowledge_base_cases path :
  (forall f kb, open path = Ok f -> json_load f = Ok kb -> load path = Ok kb)
  /\ (open path = Raise FileNotFoundError -> load path = Ok (kb_json []))
  /\ (forall ex, ex <> FileNotFoundError -> open path = Raise ex -> load path = Raise ex)
  /\ (forall f ex, open path = Ok f -> json_load f = Raise ex -> load path = Raise ex)
  /\ (forall kb, load path = Ok kb ->
        (exists f, open path = Ok f /\ json_load f = Ok kb)
        \/ (open path = Raise FileNotFoundError /\ kb = kb_json [])).
Proof.
  unfold load_knowledge_base, read_knowledge_base.
  split; [|split; [|split; [|split]]].
  - intros f kb -> Hkb. cbn. rewrite Hkb. reflexivity.
  - intros ->. reflexivity.
  - intros ex Hex ->. cbn. destruct ex; try reflexivity. destruct (Hex eq_refl).
  - intros f ex -> Hex. cbn. rewrite Hex.
    destruct ex; try reflexivity. destruct (json_load_found f Hex).
  - intros kb. destruct (open path) as [f|ex] eqn:Hopen; cbn.
    + destruct (json_load f) as [kb'|ex] eqn:Hload.
      * intros H. injection H as <-. left. exists f. split; [reflexivity|exact Hload].
      * destruct ex; try discriminate. destruct (json_load_found f Hload).
    + destruct ex; try discriminate.
      intros H. injection H as <-. right. split; reflexivity.
Qed.
End LoadFacts.

Lemma sample_json_load_found fd : sample_json_load fd <> Raise FileNotFoundError.
Proof. unfold sample_json_load. destruct (fd =? 3)%nat; discriminate. Qed.

(** C7, witness: the well-formed file, a missing file, an unreadable file
    and a file that is not JSON. *)
Lemma load_knowledge_base_cases_witness :
  load_knowledge_base nat sample_open sample_json_load "knowledge_base.json"
  = Ok (kb_json sample_entries)
  /\ load_knowledge_base nat sample_open sample_json_load "missing.json"
     = Ok (kb_json [])
  /\ load_knowledge_base nat sample_open sample_json_load "locked.json"
     = Raise (OtherException "PermissionError")
  /\ load_knowledge_base nat sample_open sample_json_load "broken.json"
     = Raise (ValueError "JSONDecodeError").
Proof.
  split; [|split; [|split]].
  - destruct (load_knowledge_base_cases nat sample_open sample_json_load
                sample_json_load_found "knowledge_base.json") as (H & _).
    apply (H 3%nat); reflexivity.
  - destruct (load_knowledge_base_cases nat sample_open sample_json_load
                sample_json_load_found "missing.json") as (_ & H & _).
    apply H. reflexivity.
  - destruct (load_knowledge_base_cases nat sample_open sample_json_load
                sample_json_load_found "locked.json") as (_ & _ & H & _).
    apply H; [discriminate|reflexivity].
  - destruct (load_knowledge_base_cases nat sample_open sample_json_load
                sample_json_load_found "broken.json") as (_ & _ & _ & H & _).
    apply (H 4%nat); reflexivity.
Defined.

(** ** Looking up an answer *)

Lemma getitem_question e : getitem (entry_json e) "question" = Ok (JStr (question e)).
Proof.
  unfold getitem, entry_json. cbn [dict_get].
  rewrite decide_True by reflexivity. reflexivity.
Qed.

Lemma getitem_answer e : getitem (entry_json e) "answer" = Ok (JStr (answer e)).
Proof.
  unfold getitem, entry_json. cbn [dict_get].
  rewrite decide_False by discriminate. rewrite decide_True by reflexivity.
  reflexivity.
Qed.

Lemma getitem_questions entries :
  getitem (kb_json entries) "questions" = Ok (JList (map entry_json entries)).
Proof.
  unfold getitem, kb_json. cbn [dict_get].
  rewrite decide_True by reflexivity. reflexivity.
Qed.

Lemma scan_questions_entries q entries :
  scan_questions q (map entry_json entries)
  = Ok (match first_answer q entries with
        | Some a => JStr a
        | None => JNull
        end).
Proof.
  unfold first_answer.
  induction entries as [|e entries IH]; [reflexivity|].
  cbn [map scan_questions List.find]. rewrite getitem_question.
  change (Ok (JStr (question e)) ≫= ?k) with (k (JStr (question e))).
  cbn [eq_str]. destruct (String.eqb (question e) q); [apply getitem_answer|exact IH].
Qed.

Lemma first_answer_at q entries i e :
  entries !! i = Some e -> question e = q ->
  (forall j e', (j < i)%nat -> entries !! j = Some e' -> question e' <> q) ->
  first_answer q entries = Some (answer e).
Proof.
  unfold first_answer. revert i.
  induction entries as [|e0 entries IH]; intros i Hi Hq Hbefore; [discriminate|].
  cbn. destruct i as [|i].
  - injection Hi as ->. rewrite (proj2 (String.eqb_eq _ _) Hq). reflexivity.
  - destruct (String.eqb (question e0) q) eqn:H0.
    + apply String.eqb_eq in H0.
      destruct (Hbefore 0%nat e0 ltac:(lia) eq_refl H0).
    + apply (IH i Hi Hq). intros j e' Hj He'.
      apply (Hbefore (S j) e'); [lia|exact He'].
Qed.

Lemma first_answer_none q entries :
  (forall e, e ∈ entries -> question e <> q) -> first_answer q entries = None.
Proof.
  unfold first_answer.
  induction entries as [|e0 entries IH]; intros H; [reflexivity|].
  cbn. destruct (String.eqb (question e0) q) eqn:H0.
  - apply String.eqb_eq in H0. destruct (H e0 ltac:(left) H0).
  - apply IH. intros e He. apply H. right. exact He.
Qed.

(** C8: on a knowledge base of question and answer entries,
    [get_answer_for_question] returns the answer of the first entry, in
    stored order, whose question is the query, byte for byte, and [None]
    when there is none; it never raises. *)
Theorem get_answer_is_first_match q entries :
  get_answer_for_question q (kb_json entries)
  = Ok (match first_answer q entries with
        | Some a => JStr a
        | None => JNull
        end)
  /\ (forall i e, entries !! i = Some e -> question e = q ->
        (forall j e', (j < i)%nat -> entries !! j = Some e' -> question e' <> q) ->
        get_answer_for_question q (kb_json entries) = Ok (JStr (answer e)))
  /\ ((forall e, e ∈ entries -> question e <> q) ->
      get_answer_for_question q (kb_json entries) = Ok JNull).
Proof.
  assert (H : get_answer_for_question q (kb_json entries)
              = Ok (match first_answer q entries with
                    | Some a => JStr a
                    | None => JNull
                    end)).
  { unfold get_answer_for_question. rewrite getitem_questions.
    apply scan_questions_entries. }
  split; [exact H|split].
  - intros i e Hi Hq Hbefore. rewrite H, (first_answer_at q entries i e Hi Hq Hbefore).
    reflexivity.
  - intros Hnone. rewrite H, (first_answer_none q entries Hnone). reflexivity.
Qed.

(** C8, witness: of the two entries that ask "What is your name?" the first
    one answers, and a query in another letter case finds nothing. *)
Lemma get_answer_is_first_match_witness :
  get_answer_for_question "What is your name?" (kb_json sample_entries)
  = Ok (JStr "GooglBot")
  /\ get_answer_for_question "what is your name?" (kb_json sample_entries)
     = Ok JNull.
Proof.
  split.
  - destruct (get_answer_is_first_match "What is your name?" sample_entries)
      as (_ & H & _).
    apply (H 0%nat {| question := "What is your name?"; answer := "GooglBot" |});
      [reflexivity|reflexivity|].
    intros j e' Hj. lia.
  - destruct (get_answer_is_first_match "what is your name?" sample_entries)
      as (_ & _ & H).
    apply H. intros e He.
    repeat (apply elem_of_cons in He as [->|He]; [discriminate|]).
    apply elem_of_nil in He. destruct He.
Defined.

(** ** Further properties of the evaluator *)

Section EvaluatorFrame.
Variable rt : Runtime.
Variables funcs consts : gmap string value.

Lemma run_body_frame body result variables x :
  x ∉ assigned_names body ->
  snd (run_body rt funcs consts body result variables) !! x = variables !! x.
Proof.
  revert result variables.
  induction body as [|node body IH]; intros result variables Hx; [reflexivity|].
  cbn [run_body]. destruct node as [targets e|e|cls]; cbn [exec_stmt].
  - destruct targets as [|[v|y|l op r|op a|f args kws|o a|o i|a|cls children] [|t2 targets]];
      try reflexivity.
    cbn [assigned_names] in Hx. apply not_elem_of_cons in Hx as [Hxy Hx].
    destruct (safe_eval_expr rt funcs consts variables e) as [v|ex]; [|reflexivity].
    rewrite (IH _ _ Hx). apply lookup_insert_ne. congruence.
  - destruct (safe_eval_expr rt funcs consts variables e) as [v|ex]; [|reflexivity].
    apply IH. exact Hx.
  - reflexivity.
Qed.

Lemma run_body_keeps body result variables x :
  is_Some (variables !! x) ->
  is_Some (snd (run_body rt funcs consts body result variables) !! x).
Proof.
  revert result variables.
  induction body as [|node body IH]; intros result variables Hx; [exact Hx|].
  cbn [run_body]. destruct node as [targets e|e|cls]; cbn [exec_stmt].
  - destruct targets as [|[v|y|l op r|op a|f args kws|o a|o i|a|cls children] [|t2 targets]];
      try exact Hx.
    destruct (safe_eval_expr rt funcs consts variables e) as [v|ex]; [|exact Hx].
    apply IH. rewrite lookup_insert. destruct (decide (y = x)); [eexists; reflexivity|exact Hx].
  - destruct (safe_eval_expr rt funcs consts variables e) as [v|ex]; [|exact Hx].
    apply IH, Hx.
  - exact Hx.
Qed.

Lemma solve_variables ast_parse expr variables body :
  ast_parse (replace expr "^" "**") = Ok body ->
  snd (solve_math_expression ast_parse rt funcs consts expr variables)
  = snd (run_body rt funcs consts body VNone variables).
Proof.
  intros Hp. unfold solve_math_expression. rewrite Hp.
  destruct (run_body rt funcs consts body VNone variables) as [[v|ex] variables'];
    reflexivity.
Qed.

(** X1: a call of [solve_math_expression] changes the Variable Table only
    at the targets of the single-name assignments of its input, whether the
    call succeeds or not: every other name keeps its binding or stays
    unbound, and no binding is ever removed. *)
Theorem variables_change_only_by_assignment ast_parse expr variables body :
  ast_parse (replace expr "^" "**") = Ok body ->
  (forall x, x ∉ assigned_names body ->
     snd (solve_math_expression ast_parse rt funcs consts expr variables) !! x
     = variables !! x)
  /\ (forall x, is_Some (variables !! x) ->
        is_Some (snd (solve_math_expression ast_parse rt funcs consts expr variables)
                 !! x))
  /\ (forall x,
        is_Some (snd (solve_math_expression ast_parse rt funcs consts expr variables)
                 !! x) ->
        is_Some (variables !! x) \/ x ∈ assigned_names body).
Proof.
  intros Hp. rewrite (solve_variables _ _ _ _ Hp).
  split; [|split].
  - intros x. apply run_body_frame.
  - intros x. apply run_body_keeps.
  - intros x Hx. destruct (decide (x ∈ assigned_names body)) as [Hin|Hout].
    + right. exact Hin.
    + left. rewrite <- (run_body_frame body VNone variables x Hout). exact Hx.
Qed.

(** A registry of constants whose names are all names of functions is
    never the one that answers. *)
Lemma safe_eval_expr_constants_shadowed variables e :
  (forall id, is_Some (consts !! id) -> is_Some (funcs !! id)) ->
  safe_eval_expr rt funcs consts variables e = safe_eval_expr rt funcs ∅ variables e.
Proof.
  intros Hsub.
  induction e as [v|id|l op r IHl IHr|op a IHa|f args kws _ IHargs _
                 |o a _|o i _ _|a _|cls children _] using expr_induction;
    try reflexivity.
  - cbn [safe_eval_expr]. destruct (variables !! id); [reflexivity|].
    destruct (funcs !! id) eqn:Hf; [reflexivity|].
    rewrite lookup_empty.
    destruct (consts !! id) eqn:Hc; [|reflexivity].
    destruct (Hsub id (mk_is_Some _ _ Hc)) as [f Hf']. congruence.
  - cbn [safe_eval_expr]. rewrite IHl, IHr. reflexivity.
  - cbn [safe_eval_expr]. rewrite IHa. reflexivity.
  - destruct f as [|func_name| | | | | | |]; try reflexivity.
    rewrite !eval_call_name.
    destruct (funcs !! func_name); [|reflexivity].
    f_equal. induction IHargs as [|arg args Harg _ IH]; [reflexivity|].
    cbn [eval_args]. rewrite Harg, IH. reflexivity.
Qed.

Lemma run_body_constants_shadowed body result variables :
  (forall id, is_Some (consts !! id) -> is_Some (funcs !! id)) ->
  run_body rt funcs consts body result variables
  = run_body rt funcs ∅ body result variables.
Proof.
  intros Hsub. revert result variables.
  induction body as [|node body IH]; intros result variables; [reflexivity|].
  cbn [run_body].
  assert (exec_stmt rt funcs consts variables node = exec_stmt rt funcs ∅ variables node)
    as ->.
  { destruct node as [targets e|e|cls]; cbn [exec_stmt];
      rewrite ?(safe_eval_expr_constants_shadowed _ _ Hsub); reflexivity. }
  destruct (exec_stmt rt funcs ∅ variables node); auto.
Qed.

(** The callee of a call is looked up among the functions only, and the
    keyword arguments are not looked at. *)
Lemma eval_call_arguments_only variables1 variables2 func_name args kws1 kws2 :
  Forall (fun arg => safe_eval_expr rt funcs consts variables1 arg
                     = safe_eval_expr rt funcs consts variables2 arg) args ->
  safe_eval_expr rt funcs consts variables1 (Call (Name func_name) args kws1)
  = safe_eval_expr rt funcs consts variables2 (Call (Name func_name) args kws2).
Proof.
  intros Hargs. rewrite !eval_call_name.
  destruct (funcs !! func_name); [|reflexivity].
  f_equal. induction Hargs as [|arg args Harg _ IH]; [reflexivity|].
  cbn [eval_args]. rewrite Harg, IH. reflexivity.
Qed.

(** A node without a case, in any position the evaluator visits, makes
    evaluation raise. *)
Lemma has_unsupported_raises variables e :
  has_unsupported e = true -> raises (safe_eval_expr rt funcs consts variables e).
Proof.
  induction e as [v|id|l op r IHl IHr|op a IHa|f args kws IHf IHargs _
                 |o a _|o i _ _|a _|cls children _] using expr_induction;
    cbn [has_unsupported]; intros H; try discriminate;
    try (eexists; reflexivity).
  - apply orb_true_iff in H as [H|H].
    { rewrite (unsupported_raises _ _ _ _ _ H). eexists; reflexivity. }
    cbn [safe_eval_expr].
    destruct (dict_get (BinClass op) allowed_ops); [|eexists; reflexivity].
    apply orb_true_iff in H as [H|H].
    + apply raises_bind_l, IHl, H.
    + apply raises_bind_r. intros lv. apply raises_bind_l, IHr, H.
  - apply orb_true_iff in H as [H|H].
    { rewrite (unsupported_raises _ _ _ _ _ H). eexists; reflexivity. }
    cbn [safe_eval_expr].
    destruct (dict_get (UnClass op) allowed_ops); [|eexists; reflexivity].
    apply raises_bind_l, IHa, H.
  - destruct f as [|func_name| | | | | | |];
      try (rewrite eval_call_other by discriminate; eexists; reflexivity).
    rewrite eval_call_name.
    destruct (funcs !! func_name); [|eexists; reflexivity].
    apply raises_bind_l, eval_args_raises.
    cbn in H. apply existsb_exists in H as (arg & Hin & Harg).
    apply list_elem_of_In in Hin.
    apply Exists_exists. exists arg. split; [exact Hin|].
    rewrite Forall_forall in IHargs. apply IHargs; [exact Hin|exact Harg].
Qed.

End EvaluatorFrame.

(** X1, witness: in [x = 5; y] the assignment runs and [y] is unknown; [z]
    keeps its binding, and [x] is the only new name. *)
Lemma variables_change_only_by_assignment_witness :
  snd (solve_math_expression Fragment.ast_parse strict_runtime allowed_funcs constants
         "x = 5; y" (<["z" := VInt 1]> ∅)) !! "z" = Some (VInt 1).
Proof.
  destruct (variables_change_only_by_assignment strict_runtime allowed_funcs constants
              Fragment.ast_parse "x = 5; y" (<["z" := VInt 1]> ∅)
              [Assign [Name "x"] (Constant (VInt 5)); Expr (Name "y")])
    as (H & _); [vm_compute; reflexivity|].
  rewrite (H "z"); [reflexivity|].
  cbn [assigned_names]. intros Hin.
  apply elem_of_cons in Hin as [Hin|Hin]; [discriminate|].
  apply elem_of_nil in Hin. exact Hin.
Defined.

Lemma constants_are_functions id :
  is_Some (constants !! id) -> is_Some (allowed_funcs !! id).
Proof.
  unfold constants. intros [c Hc].
  destruct (decide (id = "e"%string)) as [->|He]; [eexists; vm_compute; reflexivity|].
  rewrite lookup_insert_ne in Hc by congruence.
  destruct (decide (id = "pi"%string)) as [->|Hpi]; [eexists; vm_compute; reflexivity|].
  rewrite lookup_insert_ne in Hc by congruence.
  rewrite lookup_empty in Hc. discriminate.
Qed.

(** X2: the Constant Registry of [main.py] is never the table that
    answers: for every input, every runtime and every Variable Table,
    [solve_math_expression] returns the same value and leaves the same
    variables as it would with an empty Constant Registry. *)
Theorem constant_registry_never_answers ast_parse rt expr variables :
  solve_math_expression ast_parse rt allowed_funcs constants expr variables
  = solve_math_expression ast_parse rt allowed_funcs ∅ expr variables.
Proof.
  unfold solve_math_expression.
  destruct (ast_parse _) as [body|ex]; [|reflexivity].
  rewrite (run_body_constants_shadowed rt allowed_funcs constants body VNone variables
             constants_are_functions).
  reflexivity.
Qed.


Example parse_floor_division :
  Fragment.parse "gcd(4, 7 // 2)"
  = Some [Expr (Call (Name "gcd")
                  [Constant (VInt 4);
                   BinOp (Constant (VInt 7)) FloorDiv (Constant (VInt 2))] [])].
Proof. vm_compute. reflexivity. Qed.

Example parse_unary_plus :
  Fragment.parse "y = +5" = Some [Assign [Name "y"] (UnaryOp UAdd (Constant (VInt 5)))].
Proof. vm_compute. reflexivity. Qed.

(** X4: an operator outside [allowed_ops] (floor division, unary plus,
    bitwise and matrix operators, [not], [~]) or any other node without a
    case, anywhere in an expression outside the keyword arguments of calls,
    makes the statement fail: when it is the first statement that does not
    end normally, [solve_math_expression] returns [None] and keeps the
    variables assigned before it. *)
Theorem unsupported_anywhere_is_not_math ast_parse rt funcs consts expr variables
    pre node post result variables' e :
  ast_parse (replace expr "^" "**") = Ok (pre ++ node :: post) ->
  run_normally rt funcs consts pre VNone variables = Some (result, variables') ->
  node = Expr e \/ (exists x, node = Assign [Name x] e) ->
  has_unsupported e = true ->
  solve_math_expression ast_parse rt funcs consts expr variables = (VNone, variables').
Proof.
  intros Hp Hpre Hnode Hun.
  destruct (exec_stmt_raises rt funcs consts variables' node e Hnode) as [ex Hex].
  { apply has_unsupported_raises, Hun. }
  apply (solve_raised _ _ _ _ _ _ _ _ _ _ _ ex Hp Hpre Hex).
Qed.

(** X4, witness: a floor division inside an argument, and a unary plus. *)
Lemma unsupported_anywhere_is_not_math_witness :
  solve_math_expression Fragment.ast_parse lenient_runtime allowed_funcs constants
    "gcd(4, 7 // 2)" ∅ = (VNone, ∅)
  /\ solve_math_expression Fragment.ast_parse lenient_runtime allowed_funcs constants
       "y = +5" ∅ = (VNone, ∅).
Proof.
  split.
  - apply (unsupported_anywhere_is_not_math Fragment.ast_parse lenient_runtime
             allowed_funcs constants "gcd(4, 7 // 2)" ∅ []
             (Expr (Call (Name "gcd")
                      [Constant (VInt 4);
                       BinOp (Constant (VInt 7)) FloorDiv (Constant (VInt 2))] []))
             [] VNone ∅
             (Call (Name "gcd")
                [Constant (VInt 4);
                 BinOp (Constant (VInt 7)) FloorDiv (Constant (VInt 2))] []));
      [vm_compute; reflexivity|reflexivity|left; reflexivity|reflexivity].
  - apply (unsupported_anywhere_is_not_math Fragment.ast_parse lenient_runtime
             allowed_funcs constants "y = +5" ∅ []
             (Assign [Name "y"] (UnaryOp UAdd (Constant (VInt 5))))
             [] VNone ∅ (UnaryOp UAdd (Constant (VInt 5))));
      [vm_compute; reflexivity|reflexivity|right; exists "y"%string; reflexivity|reflexivity].
Defined.

(** X5: what a call [f(args, keywords)] evaluates to depends on the
    Variable Table only through its positional arguments: the callee is
    looked up in the Function Registry alone, so binding the name [f] to a
    value neither hides the function nor makes a name outside the registry
    callable, and keyword arguments are dropped. *)
Theorem calls_resolve_in_function_registry rt funcs consts variables func_name args kws :
  (forall variables' kws',
      Forall (fun arg => safe_eval_expr rt funcs consts variables' arg
                         = safe_eval_expr rt funcs consts variables arg) args ->
      safe_eval_expr rt funcs consts variables' (Call (Name func_name) args kws')
      = safe_eval_expr rt funcs consts variables (Call (Name func_name) args kws))
  /\ (funcs !! func_name = None ->
      forall v,
        safe_eval_expr rt funcs consts (<[func_name := v]> variables)
          (Call (Name func_name) args kws)
        = Raise (ValueError ("Function " ++ func_name ++ " not allowed"))).
Proof.
  split.
  - intros variables' kws' Hargs. apply eval_call_arguments_only, Hargs.
  - intros Hf v. apply disallowed_function_raises, Hf.
Qed.

(** X5, witness: with [gcd] bound to 5, [gcd(4, 6, k=1)] is still 2; and
    with [f] bound to the function [gcd], [f(4, 6)] is refused. *)
Lemma calls_resolve_in_function_registry_witness :
  safe_eval_expr strict_runtime allowed_funcs constants (<["gcd" := VInt 5]> ∅)
    (Call (Name "gcd") [Constant (VInt 4); Constant (VInt 6)]
       [(Some "k", Constant (VInt 1))])
  = Ok (VInt 2)
  /\ safe_eval_expr strict_runtime allowed_funcs constants (<["f" := VBuiltin "gcd"]> ∅)
       (Call (Name "f") [Constant (VInt 4); Constant (VInt 6)] [])
     = Raise (ValueError "Function f not allowed").
Proof.
  split.
  - destruct (calls_resolve_in_function_registry strict_runtime allowed_funcs constants
                ∅ "gcd" [Constant (VInt 4); Constant (VInt 6)] []) as [H _].
    rewrite (H (<["gcd" := VInt 5]> ∅) [(Some "k"%string, Constant (VInt 1))]).
    + vm_compute. reflexivity.
    + repeat constructor.
  - destruct (calls_resolve_in_function_registry strict_runtime allowed_funcs constants
                ∅ "f" [Constant (VInt 4); Constant (VInt 6)] []) as [_ H].
    apply H. vm_compute. reflexivity.
Defined.

(** ** Further properties of the knowledge base *)

Lemma scan_questions_skips q pre rest :
  Forall (asks_other q) pre ->
  scan_questions q (pre ++ rest) = scan_questions q rest.
Proof.
  induction 1 as [|item pre (x & Hx & Hq) _ IH]; [reflexivity|].
  cbn [app scan_questions]. rewrite Hx.
  change (Ok x ≫= ?k) with (k x). cbn beta. rewrite Hq. exact IH.
Qed.

(** X6: [get_answer_for_question] reads the knowledge base up to the first
    entry whose question is the query and no further: it returns that
    entry's ["answer"], whatever stands behind it, malformed entries
    included; it raises [KeyError] if that entry has no ["answer"], and the
    exception of the first element it cannot read a ["question"] from; when
    every element asks something else it returns [None]. *)
Theorem answer_lookup_stops_at_first_match q fields items :
  dict_get "questions"%string fields = Some (JList items) ->
  (forall pre hit behind,
      items = pre ++ hit :: behind ->
      Forall (asks_other q) pre ->
      (getitem hit "question" = Ok (JStr q) ->
       get_answer_for_question q (JDict fields) = getitem hit "answer")
      /\ (forall ex, getitem hit "question" = Raise ex ->
            get_answer_for_question q (JDict fields) = Raise ex))
  /\ (Forall (asks_other q) items ->
      get_answer_for_question q (JDict fields) = Ok JNull).
Proof.
  intros Hfields.
  assert (Hget : get_answer_for_question q (JDict fields) = scan_questions q items).
  { unfold get_answer_for_question. cbn [getitem]. rewrite Hfields. reflexivity. }
  rewrite Hget. split.
  - intros pre hit behind -> Hpre. rewrite (scan_questions_skips _ _ _ Hpre).
    cbn [scan_questions]. split.
    + intros ->. change (Ok (JStr q) ≫= ?k) with (k (JStr q)). cbn beta.
      cbn [eq_str]. rewrite String.eqb_refl. reflexivity.
    + intros ex ->. reflexivity.
  - intros Hall. rewrite <- (app_nil_r items).
    rewrite (scan_questions_skips _ _ _ Hall). reflexivity.
Qed.

(** X6, witness: the second element answers; the first asks something
    else, the third is a number; and an element without a question in front
    of the match makes the lookup raise. *)
Lemma answer_lookup_stops_at_first_match_witness :
  get_answer_for_question "b"
    (JDict [("questions",
             JList [entry_json {| question := "a"; answer := "1" |};
                    entry_json {| question := "b"; answer := "2" |};
                    JInt 3])]%string)
  = Ok (JStr "2")
  /\ get_answer_for_question "b"
       (JDict [("questions",
                JList [JDict [];
                       entry_json {| question := "b"; answer := "2" |}])]%string)
     = Raise KeyError.
Proof.
  split.
  - destruct (answer_lookup_stops_at_first_match "b"
                [("questions", JList [entry_json {| question := "a"; answer := "1" |};
                                      entry_json {| question := "b"; answer := "2" |};
                                      JInt 3])]%string
                _ eq_refl) as [H _].
    destruct (H [entry_json {| question := "a"; answer := "1" |}]
                (entry_json {| question := "b"; answer := "2" |}) [JInt 3] eq_refl)
      as [Hhit _].
    + constructor; [|constructor]. exists (JStr "a"). split; reflexivity.
    + rewrite Hhit; reflexivity.
  - destruct (answer_lookup_stops_at_first_match "b"
                [("questions", JList [JDict [];
                                      entry_json {| question := "b"; answer := "2" |}])]%string
                _ eq_refl) as [H _].
    destruct (H [] (JDict []) [entry_json {| question := "b"; answer := "2" |}] eq_refl)
      as [_ Hbad]; [constructor|].
    apply Hbad. reflexivity.
Defined.

Lemma question_list_entries entries :
  question_list (kb_json entries) = Ok (map (fun e => JStr (question e)) entries).
Proof.
  unfold question_list. rewrite getitem_questions.
  change (Ok ?x ≫= ?k) with (k x). cbn beta. cbn [iterate].
  change (Ok ?x ≫= ?k) with (k x). cbn beta.
  induction entries as [|e entries IH]; [reflexivity|].
  cbn [map question_items]. rewrite getitem_question, IH. reflexivity.
Qed.

Lemma first_answer_some e entries :
  e ∈ entries -> exists a, first_answer (question e) entries = Some a.
Proof.
  unfold first_answer.
  induction entries as [|e0 entries IH]; intros Hin.
  - apply elem_of_nil in Hin. destruct Hin.
  - cbn [List.find]. destruct (String.eqb (question e0) (question e)) eqn:H0.
    + eexists. reflexivity.
    + apply elem_of_cons in Hin as [->|Hin]; [|apply IH, Hin].
      rewrite String.eqb_refl in H0. discriminate.
Qed.

Section Matching.
Variable w : World.
(** [get_close_matches] returns some of the possibilities it was given. *)
Hypothesis matches_are_possibilities : forall word possibilities matches,
    get_close_matches w word possibilities = Ok matches ->
    forall m, m ∈ matches -> m ∈ possibilities.

(** X7: on a knowledge base of question and answer entries, a best match
    that passes the test [if best_match:] is the question of a stored entry,
    and looking it up returns the answer of the first entry with that
    question: the bot never answers [None] in this branch. *)
Theorem best_match_has_an_answer user_question entries questions best_match :
  question_list (kb_json entries) = Ok questions ->
  find_best_match w user_question questions = Ok best_match ->
  truthy best_match = true ->
  exists e a,
    e ∈ entries
    /\ best_match = JStr (question e)
    /\ first_answer (question e) entries = Some a
    /\ answer_for w best_match (kb_json entries) = Ok (JStr a).
Proof.
  intros Hq Hbest Htrue.
  rewrite question_list_entries in Hq. injection Hq as <-.
  unfold find_best_match in Hbest.
  destruct (get_close_matches w user_question _) as [matches|ex] eqn:Hm;
    [|discriminate].
  change (Ok ?x ≫= ?k) with (k x) in Hbest. cbn beta in Hbest.
  injection Hbest as <-.
  destruct matches as [|m matches]; [discriminate|].
  assert (Hin : m ∈ map (fun e => JStr (question e)) entries).
  { apply (matches_are_possibilities _ _ _ Hm). left. }
  apply list_elem_of_fmap in Hin as (e & -> & He).
  destruct (first_answer_some e entries He) as [a Ha].
  exists e, a. split; [exact He|split; [reflexivity|split; [exact Ha|]]].
  cbn [answer_for]. unfold get_answer_for_question.
  rewrite getitem_questions.
  change (Ok ?x ≫= ?k) with (k x). cbn beta. cbn [iterate].
  change (Ok ?x ≫= ?k) with (k x). cbn beta.
  rewrite scan_questions_entries, Ha. reflexivity.
Qed.
End Matching.

Lemma sample_matches_are_possibilities word possibilities matches :
  sample_get_close_matches word possibilities = Ok matches ->
  forall m, m ∈ matches -> m ∈ possibilities.
Proof.
  unfold sample_get_close_matches. intros H. injection H as <-.
  destruct (List.find _ possibilities) as [p|] eqn:Hfind; intros m Hm.
  - apply list_elem_of_singleton in Hm as ->.
    apply list_elem_of_In. apply (find_some _ _ Hfind).
  - apply elem_of_nil in Hm. destruct Hm.
Qed.

(** X7, witness: the question asked twice in the sample entries is matched
    and answered by the first of them. *)
Lemma best_match_has_an_answer_witness :
  exists e a,
    e ∈ sample_entries
    /\ JStr "What is your name?" = JStr (question e)
    /\ first_answer (question e) sample_entries = Some a
    /\ answer_for sample_world (JStr "What is your name?") (kb_json sample_entries)
       = Ok (JStr a).
Proof.
  apply (best_match_has_an_answer sample_world sample_matches_are_possibilities
           "What is your name?" sample_entries
           (map (fun e => JStr (question e)) sample_entries)).
  - apply question_list_entries.
  - reflexivity.
  - reflexivity.
Defined.

(** ** The session loop *)

Section SessionFacts.
Variable w : World.

#[local] Abbreviation loop := (chat_loop w).









Lemma solve_keeps ast_parse rt funcs consts expr variables x :
  is_Some (variables !! x) ->
  is_Some (snd (solve_math_expression ast_parse rt funcs consts expr variables) !! x).
Proof.
  intros Hx. destruct (ast_parse (replace expr "^" "**")) as [body|ex] eqn:Hp.
  - rewrite (solve_variables _ _ _ _ _ _ _ Hp). apply run_body_keeps, Hx.
  - rewrite (solve_parse_error _ _ _ _ _ _ _ Hp). exact Hx.
Qed.

Lemma keeps_refl (s : session w) : keeps_bindings s s.
Proof. intros x Hx. exact Hx. Qed.

Lemma keeps_same (s s' s'' : session w) :
  s_variables s'' = s_variables s' -> keeps_bindings s s' -> keeps_bindings s s''.
Proof. intros Heq H x Hx. rewrite Heq. apply H, Hx. Qed.

Lemma keeps_solve (s s' : session w) expr v g :
  solve_math_expression (ast_parse w) (runtime w) allowed_funcs constants expr
    (s_variables s') = (v, g) ->
  keeps_bindings s s' -> keeps_bindings s (with_variables g s').
Proof.
  intros Hsolve H x Hx. cbn [s_variables with_variables].
  change g with (snd (v, g)). rewrite <- Hsolve. apply solve_keeps, H, Hx.
Qed.

Lemma keeps_emit (s s' : session w) o :
  keeps_bindings s s' -> keeps_bindings s (emit o s').
Proof. apply keeps_same. reflexivity. Qed.

Lemma keeps_knowledge (s s' : session w) kb :
  keeps_bindings s s' -> keeps_bindings s (with_knowledge_base kb s').
Proof. apply keeps_same. reflexivity. Qed.

Lemma keeps_storage (s s' : session w) d :
  keeps_bindings s s' -> keeps_bindings s (with_storage d s').
Proof. apply keeps_same. reflexivity. Qed.

Ltac keeps_steps :=
  repeat first
    [ apply keeps_refl
    | apply keeps_emit
    | apply keeps_knowledge
    | apply keeps_storage
    | eapply keeps_solve; [eassumption|] ].

(** X12: a variable never loses its binding during a session: every name
    bound in the Variable Table at some turn is still bound at the end,
    whatever is typed in between, knowledge-base turns and failed
    expressions included (a later assignment may change its value). *)
Theorem session_keeps_bindings inputs s x :
  is_Some (s_variables s !! x) ->
  is_Some (s_variables (snd (chat_loop w inputs s)) !! x).
Proof.
  revert x. change (keeps_bindings s (snd (loop inputs s))).
  remember (length inputs) as n eqn:Hn. revert inputs s Hn.
  induction n as [n IH] using lt_wf_ind. intros inputs s Hn.
  assert (Hrec : forall rest s1, (length rest < length inputs)%nat ->
                   keeps_bindings s s1 -> keeps_bindings s (snd (loop rest s1))).
  { intros rest s1 Hlen Hs1 x Hx.
    apply (IH (length rest) ltac:(lia) rest s1 eq_refl), Hs1, Hx. }
  destruct inputs as [|line rest]; cbn [chat_loop].
  - cbn [snd]. keeps_steps.
  - repeat case_match; cbn [snd];
      try (apply Hrec; [subst; cbn [length]; lia|]);
      keeps_steps.
Qed.


Lemma dict_get_set_ne {V} (k k0 : string) (v : V) d :
  k0 <> k -> dict_get k0 (dict_set k v d) = dict_get k0 d.
Proof.
  intros Hne. induction d as [|[k' v'] d IH]; cbn [dict_set dict_get].
  - rewrite decide_False by exact Hne. reflexivity.
  - destruct (decide (k = k')) as [->|Hk]; cbn [dict_get].
    + rewrite !decide_False by exact Hne. reflexivity.
    + destruct (decide (k0 = k')); [reflexivity|exact IH].
Qed.






(** How one turn of the loop goes, as far as the knowledge base and the
    disk are concerned: the session ends and both are as they were; or the
    loop goes on with fewer lines and both are as they were; or an entry
    made of the two lines read is appended and saved and the loop goes on;
    or the entry is appended and saving it raises. *)
Lemma loop_cases inputs s :
  (exists e s1,
      loop inputs s = (e, s1)
      /\ s_knowledge_base s1 = s_knowledge_base s
      /\ s_storage s1 = s_storage s
      /\ (e = Quit ->
          exists line rest,
            inputs = line :: rest /\ lower w (strip w line) = "quit"%string))
  \/ (exists rest s1,
        loop inputs s = loop rest s1
        /\ s_knowledge_base s1 = s_knowledge_base s
        /\ s_storage s1 = s_storage s
        /\ (length rest < length inputs)%nat
        /\ (forall line, line ∈ rest -> line ∈ inputs))
  \/ (exists line line' rest kb1 d s1,
        inputs = line :: line' :: rest
        /\ kb_append (s_knowledge_base s)
             (entry_json {| question := strip w line; answer := strip w line' |})
           = Ok kb1
        /\ save_knowledge_base w (s_storage s) "knowledge_base.json" kb1 = (Ok tt, d)
        /\ s_knowledge_base s1 = kb1
        /\ s_storage s1 = d
        /\ loop inputs s = loop rest s1)
  \/ (exists line line' rest kb1 d s1 ex,
        inputs = line :: line' :: rest
        /\ kb_append (s_knowledge_base s)
             (entry_json {| question := strip w line; answer := strip w line' |})
           = Ok kb1
        /\ save_knowledge_base w (s_storage s) "knowledge_base.json" kb1 = (Raise ex, d)
        /\ s_knowledge_base s1 = kb1
        /\ s_storage s1 = d
        /\ loop inputs s = (Crash ex, s1)).
Proof.
  destruct inputs as [|line rest]; cbn [chat_loop].
  - left. eexists _, _. repeat split. discriminate.
  - repeat case_match; subst;
      repeat match goal with u : unit |- _ => destruct u end;
      cbn [s_knowledge_base s_storage emit with_variables with_knowledge_base
             with_storage] in *;
      first
        [ left; eexists _, _; split; [reflexivity|];
          split; [reflexivity|]; split; [reflexivity|];
          intros HQ;
          first [ discriminate HQ
                | eexists _, _; split; [reflexivity|];
                  apply String.eqb_eq; assumption ]
        | right; left; eexists _, _; split; [reflexivity|];
          split; [reflexivity|]; split; [reflexivity|];
          split; [cbn [length]; lia|];
          intros l0 Hl0; repeat (first [exact Hl0 | right])
        | right; right; left; eexists _, _, _, _, _, _;
          repeat apply conj; [reflexivity|eassumption|eassumption| | |reflexivity];
          reflexivity
        | right; right; right; eexists _, _, _, _, _, _, _;
          repeat apply conj; [reflexivity|eassumption|eassumption| | |reflexivity];
          reflexivity ].
Qed.




(** X10: the disk follows the memory.  However the session ends, either the
    knowledge base and the disk are as they were at the start, or the disk
    is what a successful save of the final in-memory knowledge base left,
    or the session ended with the exception of a save of the final
    knowledge base. *)
Theorem storage_follows_memory inputs s :
  (s_knowledge_base (snd (chat_loop w inputs s)) = s_knowledge_base s
   /\ s_storage (snd (chat_loop w inputs s)) = s_storage s)
  \/ (exists d,
        save_knowledge_base w d "knowledge_base.json"
          (s_knowledge_base (snd (chat_loop w inputs s)))
        = (Ok tt, s_storage (snd (chat_loop w inputs s))))
  \/ (exists d ex,
        fst (chat_loop w inputs s) = Crash ex
        /\ save_knowledge_base w d "knowledge_base.json"
             (s_knowledge_base (snd (chat_loop w inputs s)))
           = (Raise ex, s_storage (snd (chat_loop w inputs s)))).
Proof.
  remember (length inputs) as n eqn:Hn. revert inputs s Hn.
  induction n as [n IH] using lt_wf_ind. intros inputs s Hn.
  destruct (loop_cases inputs s)
    as [(e & s1 & -> & Hkb & Hst & _)
       |[(rest & s1 & -> & Hkb & Hst & Hlen & _)
        |[(line & line' & rest & kb1 & d & s1 & -> & _ & Hsave & Hkb & Hst & ->)
         |(line & line' & rest & kb1 & d & s1 & ex & -> & _ & Hsave & Hkb & Hst & ->)]]];
    cbn [fst snd].
  - left. split; assumption.
  - rewrite <- Hkb, <- Hst. apply (IH (length rest)); [lia|reflexivity].
  - destruct (IH (length rest) ltac:(cbn [length] in Hn; lia) rest s1 eq_refl)
      as [[Hkb' Hst']|H]; [|right; exact H].
    right; left. exists (s_storage s). rewrite Hkb', Hst', Hkb, Hst. exact Hsave.
  - right; right. exists (s_storage s), ex. split; [reflexivity|].
    rewrite Hkb, Hst. exact Hsave.
Qed.

(** X11: the loop ends normally only when a line says quit: if the session
    ends with [Quit], one of the lines typed, stripped and lowered, is
    "quit". *)
Theorem session_ends_on_quit_only inputs s :
  fst (chat_loop w inputs s) = Quit ->
  exists line, line ∈ inputs /\ lower w (strip w line) = "quit"%string.
Proof.
  remember (length inputs) as n eqn:Hn. revert inputs s Hn.
  induction n as [n IH] using lt_wf_ind. intros inputs s Hn.
  destruct (loop_cases inputs s)
    as [(e & s1 & -> & _ & _ & Hq)
       |[(rest & s1 & -> & _ & _ & Hlen & Hsub)
        |[(line & line' & rest & kb1 & d & s1 & -> & _ & _ & _ & _ & ->)
         |(line & line' & rest & kb1 & d & s1 & ex & -> & _ & _ & _ & _ & ->)]]];
    cbn [fst].
  - intros ->. destruct (Hq eq_refl) as (line & rest & -> & Hline).
    exists line. split; [left|exact Hline].
  - intros H.
    destruct (IH (length rest) ltac:(lia) rest s1 eq_refl H) as (l & Hl & Hquit).
    exists l. split; [apply Hsub, Hl|exact Hquit].
  - intros H.
    destruct (IH (length rest) ltac:(cbn [length] in Hn; lia) rest s1 eq_refl H)
      as (l & Hl & Hquit).
    exists l. split; [right; right; exact Hl|exact Hquit].
  - discriminate.
Qed.

End SessionFacts.


(** X12, witness: [x], bound by the first line of the sample session, is
    bound at its end. *)
Lemma session_keeps_bindings_witness :
  is_Some (s_variables
             (snd (chat_loop sample_world (tail sample_inputs)
                     (with_variables (<["x" := VInt 5]> ∅) sample_session)))
           !! "x").
Proof.
  apply (session_keeps_bindings sample_world (tail sample_inputs)
           (with_variables (<["x" := VInt 5]> ∅) sample_session) "x").
  eexists. reflexivity.
Defined.


(** X11, witness: the sample session ends with [Quit], and its fifth line
    is the one that says so. *)
Lemma session_ends_on_quit_only_witness :
  exists line,
    line ∈ sample_inputs /\ sample_lower (sample_strip line) = "quit"%string.
Proof.
  apply (session_ends_on_quit_only sample_world sample_inputs sample_session).
  vm_compute. reflexivity.
Defined.
